(** * Traffic-simulation result analysis: the record-join-classify-aggregate
      pipeline of [analyze_results.py]

    The repository holds three near-duplicate variants of one script
    ([Baseline], [Full electrical fleet], [50-50]).  The 50-50 variant is the
    most complete one and is embedded in full; the parts of the two other
    variants that differ and matter are embedded in modules of their own.

    Conventions of the embedding.
    - A pandas cell is a [cell]: missing, a binary64 number, or text.  Numbers
      are Rocq's primitive floats, so every elementwise operation computes
      exactly what Python computes.  As in a pandas float column, NaN is the
      missing value of a numeric column.
    - The cells of one column are typed the way pandas types the column:
      a column that holds numbers only is a float64 column; a column that
      holds text is an object column, and its text is text that does not read
      as a number.  Among the columns the script computes, one that holds
      the missing marker [pd.NA] is an object column as well.
    - A row of a DataFrame is a finite map from column names to cells; a
      DataFrame is its list of column names and its list of rows, in index
      order.
    - The numbers of the simulator's documents are decimal values (a
      duration is written [1200.00]), which pandas reads as float64; a
      column of numbers is taken as a float64 column throughout.
    - Code that can raise returns a [result].  The library's behaviour is the
      one of pandas 2; the message of an error is the fixed part of the
      library's message, without the column names and dtypes pandas appends
      or fills in. *)

From Stdlib Require Import Floats Ascii String.
From stdpp Require Import gmap strings list sorting.

Local Open Scope string_scope.
#[local] Set Warnings "-inexact-float,-clear-no-such-hyp".

(** ** Errors *)

(** [MergeError] is pandas' subclass of [ValueError]. *)
Inductive error : Type :=
  | ValueError (msg : string)
  | MergeError (msg : string)
  | AttributeError (msg : string)
  | KeyError (key : string)
  | TypeError (msg : string).

Inductive result (A : Type) : Type :=
  | Ok (a : A)
  | Raise (e : error).
Arguments Ok {A} a.
Arguments Raise {A} e.

Global Instance result_ret : MRet result := fun A a => Ok a.

Global Instance result_bind : MBind result := fun A B k m =>
  match m with
  | Ok a => k a
  | Raise e => Raise e
  end.

Definition is_ok {A} (m : result A) : bool :=
  match m with Ok _ => true | Raise _ => false end.

(** ** Cells *)

Inductive cell : Type :=
  | NA
  | Num (x : float)
  | Str (s : string).

(** [pd.isna] / [Series.isna]: the missing marker and NaN. *)
Definition isna (c : cell) : bool :=
  match c with
  | NA => true
  | Num x => PrimFloat.is_nan x
  | Str _ => false
  end.

Definition notna (c : cell) : bool := negb (isna c).

(** ** Python string operations *)

(** [s.startswith(p)] *)
Fixpoint startswith (s p : string) : bool :=
  match p with
  | EmptyString => true
  | String c p' =>
      match s with
      | EmptyString => false
      | String d s' => Ascii.eqb c d && startswith s' p'
      end
  end.

(** [sub in s] *)
Fixpoint contains (sub s : string) : bool :=
  startswith s sub ||
  match s with
  | EmptyString => false
  | String _ s' => contains sub s'
  end.

Definition lower_ascii (c : ascii) : ascii :=
  let n := nat_of_ascii c in
  if (65 <=? n)%nat && (n <=? 90)%nat then ascii_of_nat (n + 32) else c.

(** [s.lower()], on the bytes of the string: the letters A..Z are the only
    bytes that change. *)
Fixpoint lower (s : string) : string :=
  match s with
  | EmptyString => EmptyString
  | String c s' => String (lower_ascii c) (lower s')
  end.

(** ** Configuration constants *)

Definition SERVICE_TIME_PER_TRUCK_S : float := 600%float.
Definition GRID_CO2_KG_PER_KWH : float := 0.20%float.
Definition EV_TYPES : gset string := {[ "truck_ev" ]}.
Definition DIESEL_TYPES : gset string := {[ "truck_euro6" ]}.

(** ** Classifier *)

Definition classify_vehicle (veh_id : string) : string :=
  if startswith veh_id "T_" then "logistics_truck"
  else if startswith veh_id "bgt_" then "background_truck"
  else if startswith veh_id "bgc_" || startswith veh_id "F_" then "background_car"
  else "other".

Definition hub_from_id (veh_id : string) : string :=
  if startswith veh_id "T_SPAR" then "SPAR"
  else if startswith veh_id "T_UCS" then "UCS"
  else if startswith veh_id "T_TGW" then "TGW"
  else if startswith veh_id "T_ROS2" then "Roswell2"
  else if startswith veh_id "T_ROS34" then "Roswell3&4"
  else "other".

(** [vtype in TYPES] for a cell: only text can be a member of a set of
    strings. *)
Definition cell_in (vtype : cell) (types : gset string) : bool :=
  match vtype with
  | Str s => bool_decide (s ∈ types)
  | _ => false
  end.

(** [str(vtype)] is needed only for cells that are not missing.  The text of
    a number is made of digits, a sign, a dot and an exponent mark (or is
    [inf]), so it is kept apart: no such text contains [ev] or [electric]. *)
Definition heuristic_text (vtype : cell) : option string :=
  match vtype with
  | Str s => Some s
  | _ => None
  end.

(** [powertrain_from_vtype] of the 50-50 variant: the fallback looks for
    [ev] only. *)
Definition powertrain_from_vtype (vtype : cell) : string :=
  if isna vtype then "unknown"
  else if cell_in vtype EV_TYPES then "EV"
  else if cell_in vtype DIESEL_TYPES then "Diesel"
  else match heuristic_text vtype with
       | Some s => if contains "ev" (lower s) then "EV" else "Other"
       | None => "Other"
       end.

Module FullElectricalFleet.

(** [powertrain_from_vtype] of the Full-electrical-fleet variant: the
    fallback looks for [ev] or [electric]. *)
Definition powertrain_from_vtype (vtype : cell) : string :=
  if isna vtype then "unknown"
  else if cell_in vtype EV_TYPES then "EV"
  else if cell_in vtype DIESEL_TYPES then "Diesel"
  else match heuristic_text vtype with
       | Some s =>
           let s := lower s in
           if contains "ev" s || contains "electric" s then "EV" else "Other"
       | None => "Other"
       end.

End FullElectricalFleet.

(** ** DataFrames *)

(** A row maps column names to cells; a column the row has no entry for
    reads as missing, as pandas fills it. *)
Definition get (c : string) (r : gmap string cell) : cell := default NA (r !! c).

Record DataFrame : Type := mkDF {
  columns : list string;
  rows : list (gmap string cell)
}.

Definition has_col (c : string) (df : DataFrame) : bool :=
  bool_decide (c ∈ columns df).

(** [df.empty] *)
Definition empty (df : DataFrame) : bool :=
  match columns df, rows df with
  | [], _ | _, [] => true
  | _, _ => false
  end.

(** [df[c] = ...], elementwise: [f] computes the new cell of a row from the
    row as it is before the assignment. *)
Definition with_column (c : string) (f : gmap string cell -> cell)
    (df : DataFrame) : DataFrame :=
  {| columns := if has_col c df then columns df else columns df ++ [c];
     rows := (fun r => <[c := f r]> r) <$> rows df |}.

(** [df[c]]: a column that is not there is a [KeyError]. *)
Definition column (c : string) (df : DataFrame) : result unit :=
  if has_col c df then mret () else Raise (KeyError c).

(** The dtype of a column that was read from XML: object when it holds
    text, numeric otherwise. *)
Definition text_column (c : string) (df : DataFrame) : bool :=
  existsb (fun r => match get c r with Str _ => true | _ => false end) (rows df).

(** The distinct names of a list, in order of first appearance. *)
Fixpoint unique (l : list string) : list string :=
  match l with
  | [] => []
  | c :: l' => c :: filter (fun c' => c' ≠ c) (unique l')
  end.

(** [Index.duplicated()]: the positions that repeat an earlier name. *)
Fixpoint duplicated_from (seen l : list string) : list bool :=
  match l with
  | [] => []
  | c :: l' => bool_decide (c ∈ seen) :: duplicated_from (c :: seen) l'
  end.

Definition duplicated (l : list string) : list bool := duplicated_from [] l.

(** The check pandas makes after it has added suffixes to the names [old],
    which gave the names [new]: a name that the suffixes duplicated is an
    error. *)
Definition suffix_dups (old new : list string) : bool :=
  existsb (fun on => negb on.1 && on.2) (zip (duplicated old) (duplicated new)).

(** [df.get(c, default)] read at a row. *)
Definition df_get (df : DataFrame) (c : string) (dflt : cell)
    (r : gmap string cell) : cell :=
  if has_col c df then get c r else dflt.

(** ** The XML source

    The simulator's documents are taken as parsed: an element is the list of
    the names [pd.read_xml] finds on it (its attributes, and its child
    elements, whose value is missing when they hold no text), in document
    order and distinct, each value already typed the way [pd.read_xml] types
    a column. *)
Definition node : Type := list (string * cell).

(** The row an element gives: a column per attribute. *)
Definition row_of (n : node) : gmap string cell := list_to_map n.

(** [pd.read_xml(path, xpath=...)] on the elements the path selects.  pandas
    raises when the path selects nothing to read; otherwise there is one row
    per element and one column per attribute name, in order of first
    appearance. *)
Definition read_xml (nodes : list node) : result DataFrame :=
  if forallb (fun n => bool_decide (n = [])) nodes
  then Raise (ValueError "xpath does not return any nodes or attributes")
  else Ok {| columns := unique (concat (map (map fst) nodes));
             rows := row_of <$> nodes |}.

(** [tripinfo.xml]: the elements that [.//tripinfo] and [.//emissions]
    select, each collection in document order. *)
Record document : Type := mkDoc {
  tripinfo : list node;
  emissions : list node
}.

(** ** Joining on the index *)

(** Left rows paired by position with the right row of the same index; a
    left row past the end of the right table is paired with an empty row. *)
Fixpoint align (ls rs : list (gmap string cell))
    : list (gmap string cell * gmap string cell) :=
  match ls with
  | [] => []
  | l :: ls' => (l, hd ∅ rs) :: align ls' (tl rs)
  end.

(** The name a right column gets: the suffix is added when the left table
    has a column of that name. *)
Definition right_name (rsuffix : string) (left : DataFrame) (c : string) : string :=
  if has_col c left then c ++ rsuffix else c.

Definition join_row (rsuffix : string) (left right : DataFrame)
    (lr : gmap string cell * gmap string cell) : gmap string cell :=
  lr.1 ∪ list_to_map ((fun c => (right_name rsuffix left c, get c lr.2)) <$> columns right).

(** The table of a join on the index: every left row is kept, in order. *)
Definition joined (rsuffix : string) (left right : DataFrame) : DataFrame :=
  {| columns := columns left ++ (right_name rsuffix left <$> columns right);
     rows := join_row rsuffix left right <$> align (rows left) (rows right) |}.

(** [left.join(right, how="left", lsuffix="", rsuffix=rsuffix)].  When the
    two tables share a column name, pandas raises if no suffix was given,
    and raises if the suffix makes two right columns of one name.  (A right
    column whose suffixed name is the name of a left column becomes a second
    column of that name; the script reads no such column, and the row keeps
    the left cell under that name.) *)
Definition join (rsuffix : string) (left right : DataFrame) : result DataFrame :=
  if forallb (fun c => negb (has_col c left)) (columns right)
  then mret (joined rsuffix left right)
  else if bool_decide (rsuffix = "")
  then Raise (ValueError "columns overlap but no suffix specified")
  else if suffix_dups (columns right) (right_name rsuffix left <$> columns right)
  then Raise (MergeError "Passing 'suffixes' which cause duplicate columns is not allowed.")
  else mret (joined rsuffix left right).

(** ** Telemetry loader (50-50 variant) *)

(** [if c not in df.columns: df[c] = ...] *)
Definition ensure_column (c : string) (f : gmap string cell -> cell)
    (df : DataFrame) : DataFrame :=
  if has_col c df then df else with_column c f df.

Definition load_tripinfo_with_emissions (doc : document) : result DataFrame :=
  trip ← read_xml (tripinfo doc);
  if negb (has_col "id" trip)
  then Raise (ValueError "tripinfo.xml missing 'id' attribute on <tripinfo>.")
  else
    let trip := ensure_column "routeLength" (fun _ => NA) trip in
    let trip := ensure_column "duration" (fun _ => NA) trip in
    let trip := ensure_column "vType" (get "type") trip in
    em ← read_xml (emissions doc);
    df ← join "_em" trip em;
    mret (foldl (fun df col => ensure_column col (fun _ => Num 0%float) df)
                df ["CO2_abs"; "fuel_abs"]).

(** ** Numeric helpers *)

(** [pd.to_numeric(x, errors="coerce")] on a cell.  A column that holds
    numbers arrives as [Num]; text in such a column is text that does not
    read as a number, which is coerced to NaN. *)
Definition to_numeric (c : cell) : float :=
  match c with
  | Num x => x
  | NA | Str _ => PrimFloat.nan
  end.

(** The values a reduction keeps ([skipna]). *)
Definition valid_values (cs : list cell) : list float :=
  omap (fun c => match c with
                 | Num x => if PrimFloat.is_nan x then None else Some x
                 | _ => None
                 end) cs.

(** The sum of a group of a float64 column, as pandas' [group_sum] and
    [group_mean] accumulate it: Kahan's compensated summation from zero, in
    row order; a compensation that is not a number (an infinite value was
    added) is reset to zero. *)
Definition kahan_step (acc : float * float) (x : float) : float * float :=
  let y := (x - acc.2)%float in
  let t := (acc.1 + y)%float in
  let c := ((t - acc.1) - y)%float in
  (t, if PrimFloat.is_nan c then 0%float else c).

Definition ksum (xs : list float) : float :=
  (foldl kahan_step (0%float, 0%float) xs).1.

(** numpy's sum along a row ([axis=1]): accumulation from zero, one column
    after the other. *)
Definition fsum (xs : list float) : float := foldl PrimFloat.add 0%float xs.

(** The sum of the values of an object column: Python's additions, from the
    first value on. *)
Definition osum (xs : list float) : float :=
  match xs with
  | [] => 0%float
  | x :: xs' => foldl PrimFloat.add x xs'
  end.

(** [groupby(...).sum(min_count=1)] on a group of a float64 column: missing
    when no value is present. *)
Definition sum_min_count1 (cs : list cell) : cell :=
  match valid_values cs with
  | [] => Num PrimFloat.nan
  | xs => Num (ksum xs)
  end.

(** [df.sum(axis=1, min_count=1)] on a row: missing when no value is
    present. *)
Definition row_sum_min_count1 (cs : list cell) : cell :=
  match valid_values cs with
  | [] => Num PrimFloat.nan
  | xs => Num (fsum xs)
  end.

(** A column of a table is a float64 column: it holds numbers only. *)
Definition float_column (c : string) (rs : list (gmap string cell)) : bool :=
  forallb (fun r => match get c r with Num _ => true | _ => false end) rs.

(** [.sum()] on a group: zero when no value is present.  [numeric] tells
    whether the column is a float64 column. *)
Definition agg_sum (numeric : bool) (cs : list cell) : cell :=
  let xs := valid_values cs in
  Num (if numeric then ksum xs else osum xs).

Definition float_of_nat (n : nat) : float :=
  PrimFloat.of_uint63 (Uint63.of_Z (Z.of_nat n)).

(** [Series.mean()] on the cells of a group of an object column: the missing
    cells are replaced by zero, the cells are added up from the first one
    on, and the sum is divided by the number of values; without a value the
    mean is missing. *)
Definition omean (cs : list cell) : float :=
  match valid_values cs with
  | [] => PrimFloat.nan
  | xs => PrimFloat.div (osum ((fun c => if isna c then 0%float else to_numeric c) <$> cs))
                        (float_of_nat (length xs))
  end.

(** [.mean()] on a group: missing when no value is present. *)
Definition agg_mean (numeric : bool) (cs : list cell) : cell :=
  if numeric
  then let xs := valid_values cs in
       Num (PrimFloat.div (ksum xs) (float_of_nat (length xs)))
  else Num (omean cs).

(** [.count()]: the number of cells that are not missing. *)
Definition agg_count (cs : list cell) : nat := length (filter (fun c => notna c = true) cs).

(** ** Grouping *)

Global Instance float_eq_dec : EqDecision float.
Proof.
  refine (fun x y => cast_if (decide (PrimFloat.Leibniz.eqb x y = true)));
    by rewrite <- FloatAxioms.Leibniz.eqb_spec.
Defined.

Global Instance cell_eq_dec : EqDecision cell.
Proof. solve_decision. Defined.

(** The order group keys are sorted in.  Keys of one column are all text or
    all numbers; a missing key, when it is kept, comes last. *)
Definition cell_leb (a b : cell) : bool :=
  match a, b with
  | _, NA => true
  | NA, _ => false
  | Num x, Num y => PrimFloat.leb x y
  | Num _, Str _ => true
  | Str _, Num _ => false
  | Str s, Str t => String.leb s t
  end.

Definition cell_le (a b : cell) : Prop := cell_leb a b = true.

Global Instance cell_le_dec : RelDecision cell_le.
Proof. intros a b. unfold cell_le. apply _. Defined.

Section groupby.
Context {K : Type} `{EqDecision K} (R : relation K) `{!RelDecision R}.

(** The distinct keys, sorted. *)
Definition group_keys (key : gmap string cell -> K) (rs : list (gmap string cell)) : list K :=
  merge_sort R (remove_dups (key <$> rs)).

(** [df.groupby(key, dropna=False)]: every key with its rows, in index
    order.  Keys are compared as cells. *)
Definition groupby (key : gmap string cell -> K) (rs : list (gmap string cell))
    : list (K * list (gmap string cell)) :=
  (fun k => (k, filter (fun r => key r = k) rs)) <$> group_keys key rs.

End groupby.

(** [df.groupby(by)[cols].sum(min_count=1).reset_index()]: rows whose key is
    missing are dropped (the default [dropna=True]). *)
Definition groupby_sum (by_ : string) (cols : list string) (df : DataFrame) : DataFrame :=
  let rs := filter (fun r => notna (get by_ r) = true) (rows df) in
  {| columns := by_ :: cols;
     rows := (fun kg => <[by_ := kg.1]>
                (list_to_map ((fun c => (c, sum_min_count1 (get c <$> kg.2))) <$> cols)))
             <$> groupby cell_le (get by_) rs |}.

(** [df.rename(columns={old: new})] *)
Definition rename (old new : string) (df : DataFrame) : DataFrame :=
  {| columns := (fun c => if String.eqb c old then new else c) <$> columns df;
     rows := (fun r => match r !! old with
                       | Some v => <[new := v]> (delete old r)
                       | None => r
                       end) <$> rows df |}.

(** [df[[c1; ...]]] *)
Definition select (cols : list string) (df : DataFrame) : DataFrame :=
  {| columns := cols;
     rows := (fun r => filter (fun kv => kv.1 ∈ cols) r) <$> rows df |}.

(** [pd.concat(frames, ignore_index=True)] *)
Definition concat_frames (frames : list DataFrame) : DataFrame :=
  {| columns := unique (concat (columns <$> frames));
     rows := concat (rows <$> frames) |}.

(** ** Battery loader (50-50 variant) *)

Definition id_aliases : list string := ["vehicle"; "vehid"; "name"].

Definition energy_aliases : list string :=
  ["energyconsumed"; "totalenergyconsumed"; "chargingenergy"; "dischargingenergy"; "energy"].

(** The identifier column is harmonized to [id]. *)
Definition harmonize_id (vdf : DataFrame) : DataFrame :=
  if has_col "id" vdf then vdf
  else match List.find (fun c => bool_decide (lower c ∈ id_aliases)) (columns vdf) with
       | Some id_col => if bool_decide (id_col = "") then vdf else rename id_col "id" vdf
       | None => vdf
       end.

Definition energy_cols_of (vdf : DataFrame) : list string :=
  List.filter (fun c => bool_decide (lower c ∈ energy_aliases)) (columns vdf).

(** The authoritative total of an aggregated row. *)
Definition select_energy (energy_cols : list string) (agg : DataFrame)
    (r : gmap string cell) : cell :=
  if has_col "energyConsumed" agg then get "energyConsumed" r
  else if has_col "totalEnergyConsumed" agg then get "totalEnergyConsumed" r
  else if has_col "energy" agg then get "energy" r
  else row_sum_min_count1 ((fun c => get c r) <$> energy_cols).

(** The body of the [try] block: the frames appended to [energy_rows]. *)
Definition shape_A (vehicles : list node) : result (list DataFrame) :=
  vdf ← read_xml vehicles;
  if empty vdf then mret []
  else
    let vdf := harmonize_id vdf in
    let energy_cols := energy_cols_of vdf in
    let vdf := foldl (fun df c => with_column c (fun r => Num (to_numeric (get c r))) df)
                     vdf energy_cols in
    if has_col "id" vdf && negb (bool_decide (energy_cols = []))
    then
      let agg := groupby_sum "id" energy_cols vdf in
      let agg := with_column "energy_Wh" (select_energy energy_cols agg) agg in
      mret [select ["id"; "energy_Wh"] agg]
    else mret [].

(** [battery] is [None] when [battery.xml] does not exist, and otherwise the
    elements that [.//vehicle] selects. *)
Definition load_battery_totals (battery : option (list node)) : option DataFrame :=
  match battery with
  | None => None
  | Some vehicles =>
      let energy_rows := match shape_A vehicles with
                         | Ok frames => frames
                         | Raise _ => []
                         end in
      if bool_decide (energy_rows = []) then None
      else Some (groupby_sum "id" ["energy_Wh"] (concat_frames energy_rows))
  end.

(** ** Metric deriver and aggregator (50-50 variant) *)

(** The number a cell of a numeric column holds. *)
Definition num (c : cell) : float :=
  match c with
  | Num x => x
  | NA | Str _ => PrimFloat.nan
  end.

(** [df[c] = df[src].apply(f)] for an [f] that calls [startswith] on its
    argument: a value that is not text has no such method. *)
Definition apply_str (c src : string) (f : string -> string) (df : DataFrame)
    : result DataFrame :=
  if forallb (fun r => match get src r with Str _ => true | _ => false end) (rows df)
  then mret (with_column c (fun r => match get src r with
                                     | Str s => Str (f s)
                                     | _ => NA
                                     end) df)
  else Raise (AttributeError "object has no attribute 'startswith'").

(** [series.replace(0, pd.NA)] on a cell. *)
Definition replace_zero (c : cell) : cell :=
  match c with
  | Num x => if PrimFloat.eqb x 0%float then NA else c
  | _ => c
  end.

(** Division of a numeric cell by a cell that may be [pd.NA]. *)
Definition cell_div (a b : cell) : cell :=
  match a, b with
  | Num x, Num y => Num (PrimFloat.div x y)
  | _, _ => NA
  end.

(** [series.fillna(0)] on a cell of a numeric column. *)
Definition fillna0 (c : cell) : float :=
  if isna c then 0%float else num c.

(** [df.loc[mask, c] = f], elementwise. *)
Definition assign_where (mask : gmap string cell -> bool) (c : string)
    (f : gmap string cell -> cell) (df : DataFrame) : DataFrame :=
  with_column c (fun r => if mask r then f r else get c r) df.

(** The rows of a left merge on [id]: a left row is repeated once per right
    row of the same id, and kept once, with the right columns missing, when
    there is none.  Ids are compared as cells. *)
Definition merge_row (right_cols : list string)
    (r : gmap string cell) (b : option (gmap string cell)) : gmap string cell :=
  foldr (fun c m => <[c := from_option (get c) NA b]> m) r right_cols.

Definition merged (left right : DataFrame) : DataFrame :=
  let right_cols := filter (fun c => c ≠ "id") (columns right) in
  {| columns := columns left ++ right_cols;
     rows := r ← rows left;
             match filter (fun b => get "id" b = get "id" r) (rows right) with
             | [] => [merge_row right_cols r None]
             | ms => (fun b => merge_row right_cols r (Some b)) <$> ms
             end |}.

(** The name of a column after the suffix is added to the names the two
    tables share. *)
Definition suffixed (suffix : string) (shared : list string) (c : string) : string :=
  if bool_decide (c ∈ shared) then c ++ suffix else c.

Definition rename_columns (name : string -> string) (df : DataFrame) : DataFrame :=
  {| columns := name <$> columns df;
     rows := (fun r => list_to_map (prod_map name id <$> map_to_list r)) <$> rows df |}.

(** [df.merge(bat, on="id", how="left")].  pandas refuses to merge a key
    column of text with a key column of numbers, whatever their values (the
    check is skipped when one of the two tables has no rows; the message
    names the two dtypes, here for integer ids).  The columns the two tables share, the key apart,
    get the suffixes [_x] and [_y], and a name that the suffixes duplicate is
    an error. *)
Definition merge_on_id (df bat : DataFrame) : result DataFrame :=
  if negb (bool_decide (rows df = [])) && negb (bool_decide (rows bat = []))
     && xorb (text_column "id" df) (text_column "id" bat)
  then Raise (ValueError
         "You are trying to merge on object and int64 columns for key 'id'. If you wish to proceed you should use pd.concat")
  else
    let shared := filter (fun c => c ≠ "id" ∧ c ∈ columns df) (columns bat) in
    if bool_decide (shared = []) then mret (merged df bat)
    else if suffix_dups (columns df) (suffixed "_x" shared <$> columns df)
            || suffix_dups (columns bat) (suffixed "_y" shared <$> columns bat)
    then Raise (MergeError "Passing 'suffixes' which cause duplicate columns is not allowed.")
    else mret (merged (rename_columns (suffixed "_x" shared) df)
                      (rename_columns (suffixed "_y" shared) bat)).

(** The sections of [main] that derive the per-vehicle columns, one
    definition per section of the source. *)

(** [# Basic metrics], after the classification of the ids. *)
Definition basic_metrics (df : DataFrame) : DataFrame :=
  let df := with_column "distance_km"
    (fun r => Num (to_numeric (df_get df "routeLength" (Num 0%float) r) / 1000)%float) df in
  let df := with_column "travel_time_min"
    (fun r => Num (to_numeric (df_get df "duration" (Num 0%float) r) / 60)%float) df in
  df.

(** [# Emissions & fuel (HBEFA absolute mg -> g / kg)] *)
Definition emissions_and_fuel (df : DataFrame) : DataFrame :=
  let df := with_column "CO2_g"
    (fun r => Num (to_numeric (df_get df "CO2_abs" (Num 0%float) r) / 1000)%float) df in
  let df := with_column "CO2_kg"
    (fun r => Num (to_numeric (df_get df "CO2_abs" (Num 0%float) r) / 1000000)%float) df in
  let df := with_column "fuel_g"
    (fun r => Num (to_numeric (df_get df "fuel_abs" (Num 0%float) r) / 1000)%float) df in
  let df := with_column "fuel_kg"
    (fun r => Num (to_numeric (df_get df "fuel_abs" (Num 0%float) r) / 1000000)%float) df in
  df.

(** [# Per-km metrics (avoid /0)] *)
Definition per_km_metrics (df : DataFrame) : DataFrame :=
  let dist_km_nz := fun r => replace_zero (get "distance_km" r) in
  let df := with_column "CO2_kg_per_km"
    (fun r => cell_div (get "CO2_kg" r) (dist_km_nz r)) df in
  let df := with_column "fuel_kg_per_km"
    (fun r => cell_div (get "fuel_kg" r) (dist_km_nz r)) df in
  df.

(** [# Service / discharge time] *)
Definition service_time (df : DataFrame) : DataFrame :=
  let df := with_column "service_time_s" (fun _ => Num 0%float) df in
  let df := assign_where
    (fun r => bool_decide (get "vehicle_group" r = Str "logistics_truck"))
    "service_time_s" (fun _ => Num SERVICE_TIME_PER_TRUCK_S) df in
  let df := with_column "driving_time_min"
    (fun r => Num ((to_numeric (df_get df "duration" (Num 0%float) r)
                    - num (get "service_time_s" r)) / 60)%float) df in
  df.

(** [# Powertrain detection from vType] *)
Definition powertrain_detection (df : DataFrame) : DataFrame :=
  with_column "powertrain" (fun r => Str (powertrain_from_vtype (get "vType" r))) df.

(** [# --- battery (energy) ---] *)
Definition battery_energy (battery : option (list node)) (df : DataFrame)
    : result DataFrame :=
  match load_battery_totals battery with
  | Some bat =>
      if negb (empty bat) then
        df ← merge_on_id df bat;
        _ ← column "energy_Wh" df;
        let df := with_column "energy_Wh" (fun r => Num (to_numeric (get "energy_Wh" r))) df in
        let df := with_column "energy_kWh" (fun r => Num (num (get "energy_Wh" r) / 1000)%float) df in
        mret df
      else mret (with_column "energy_kWh" (fun _ => NA) df)
  | None => mret (with_column "energy_kWh" (fun _ => NA) df)
  end.

(** [# Indirect CO2 for EVs only] *)
Definition indirect_CO2 (df : DataFrame) : DataFrame :=
  let df := with_column "indirect_CO2_kg" (fun _ => Num 0%float) df in
  let ev_mask := fun r =>
    bool_decide (get "powertrain" r = Str "EV") && notna (get "energy_kWh" r) in
  let df := assign_where ev_mask "indirect_CO2_kg"
    (fun r => Num (num (get "energy_kWh" r) * GRID_CO2_KG_PER_KWH)%float) df in
  df.

(** [# Combined CO2: tailpipe (HBEFA) + indirect from electricity] *)
Definition combined_CO2 (df : DataFrame) : DataFrame :=
  with_column "total_CO2_kg_combined"
    (fun r => Num (fillna0 (get "CO2_kg" r) + fillna0 (get "indirect_CO2_kg" r))%float) df.

(** The per-vehicle table: [main] up to the last derived column. *)
Definition per_vehicle_table (doc : document) (battery : option (list node))
    : result DataFrame :=
  df ← load_tripinfo_with_emissions doc;
  df ← apply_str "vehicle_group" "id" classify_vehicle df;
  let df := basic_metrics df in
  let df := emissions_and_fuel df in
  let df := per_km_metrics df in
  let df := service_time df in
  let df := powertrain_detection df in
  df ← battery_energy battery df;
  let df := indirect_CO2 df in
  let df := combined_CO2 df in
  mret df.

(** A row of a summary table: the grouping key, the count of vehicles, and
    the named mean and sum aggregates. *)
Inductive how : Type := Mean | Sum.

Record GroupSummaryRow (K : Type) : Type := mkSummary {
  group : K;
  n_vehicles : nat;
  stats : list (string * cell)
}.
Arguments mkSummary {K}.
Arguments group {K}.
Arguments n_vehicles {K}.
Arguments stats {K}.

(** [.agg(n_vehicles=("id", "count"), name=(column, how), ...)] on one
    group of the table whose rows are [table]. *)
Definition agg {K} (spec : list (string * (string * how)))
    (table : list (gmap string cell))
    (kg : K * list (gmap string cell)) : GroupSummaryRow K :=
  {| group := kg.1;
     n_vehicles := agg_count (get "id" <$> kg.2);
     stats := (fun s => (s.1, match s.2.2 with
                              | Mean => agg_mean (float_column s.2.1 table) (get s.2.1 <$> kg.2)
                              | Sum => agg_sum (float_column s.2.1 table) (get s.2.1 <$> kg.2)
                              end)) <$> spec |}.

(** Keys of a grouping on two columns are ordered by the first column, then
    by the second. *)
Definition pair_le (a b : cell * cell) : Prop :=
  if decide (a.1 = b.1) then cell_le a.2 b.2 else cell_le a.1 b.1.

Global Instance pair_le_dec : RelDecision pair_le.
Proof. intros a b. unfold pair_le. destruct (decide (a.1 = b.1)); apply _. Defined.

Definition summary_le (a b : GroupSummaryRow (cell * cell)) : Prop :=
  pair_le (group a) (group b).

Global Instance summary_le_dec : RelDecision summary_le.
Proof. intros a b. unfold summary_le. apply _. Defined.

(** [table.sort_values([k1; k2])] on a summary table. *)
Definition sort_values (t : list (GroupSummaryRow (cell * cell)))
    : list (GroupSummaryRow (cell * cell)) :=
  merge_sort summary_le t.

Definition group_spec : list (string * (string * how)) :=
  [ ("mean_travel_time_min", ("travel_time_min", Mean));
    ("mean_driving_time_min", ("driving_time_min", Mean));
    ("mean_distance_km", ("distance_km", Mean));
    ("tailpipe_CO2_kg", ("CO2_kg", Sum));
    ("indirect_CO2_kg", ("indirect_CO2_kg", Sum));
    ("combined_CO2_kg", ("total_CO2_kg_combined", Sum));
    ("mean_CO2_kg", ("CO2_kg", Mean));
    ("mean_CO2_kg_per_km", ("CO2_kg_per_km", Mean));
    ("mean_energy_kWh", ("energy_kWh", Mean));
    ("total_energy_kWh", ("energy_kWh", Sum)) ].

Definition gp_pt_spec : list (string * (string * how)) :=
  [ ("mean_distance_km", ("distance_km", Mean));
    ("tailpipe_CO2_kg", ("CO2_kg", Sum));
    ("indirect_CO2_kg", ("indirect_CO2_kg", Sum));
    ("combined_CO2_kg", ("total_CO2_kg_combined", Sum));
    ("total_energy_kWh", ("energy_kWh", Sum)) ].

Definition hub_spec : list (string * (string * how)) :=
  [ ("mean_travel_time_min", ("travel_time_min", Mean));
    ("mean_driving_time_min", ("driving_time_min", Mean));
    ("mean_distance_km", ("distance_km", Mean));
    ("tailpipe_CO2_kg", ("CO2_kg", Sum));
    ("indirect_CO2_kg", ("indirect_CO2_kg", Sum));
    ("combined_CO2_kg", ("total_CO2_kg_combined", Sum));
    ("total_energy_kWh", ("energy_kWh", Sum)) ].

(** The tables [main] writes.  The by-hub summary is [None] when its file is
    not written. *)
Record outputs : Type := mkOutputs {
  vehicles_with_emissions_and_energy : DataFrame;
  logistics_trucks_detailed : DataFrame;
  summary_by_group : list (GroupSummaryRow cell);
  summary_by_group_powertrain : list (GroupSummaryRow (cell * cell));
  summary_trucks_by_hub_powertrain : option (list (GroupSummaryRow (cell * cell)))
}.

(** [df[df["vehicle_group"] == "logistics_truck"].copy()] *)
Definition logistics_trucks (df : DataFrame) : DataFrame :=
  {| columns := columns df;
     rows := filter (fun r => get "vehicle_group" r = Str "logistics_truck") (rows df) |}.

Definition main (doc : document) (battery : option (list node)) : result outputs :=
  df ← per_vehicle_table doc battery;
  let group_summary :=
    agg group_spec (rows df) <$> groupby cell_le (get "vehicle_group") (rows df) in
  let gp_pt_summary :=
    sort_values (agg gp_pt_spec (rows df) <$>
      groupby pair_le (fun r => (get "vehicle_group" r, get "powertrain" r)) (rows df)) in
  let trucks := logistics_trucks df in
  trucks_hub ←
    (if negb (empty trucks) then
       trucks ← apply_str "hub" "id" hub_from_id trucks;
       mret (trucks,
             sort_values (agg hub_spec (rows trucks) <$>
               groupby pair_le (fun r => (get "hub" r, get "powertrain" r)) (rows trucks)))
     else mret (trucks, []));
  mret {| vehicles_with_emissions_and_energy := df;
          logistics_trucks_detailed := trucks_hub.1;
          summary_by_group := group_summary;
          summary_by_group_powertrain := gp_pt_summary;
          summary_trucks_by_hub_powertrain :=
            match trucks_hub.2 with
            | [] => None
            | hub_summary => Some hub_summary
            end |}.

(** ** Sources the run accepts *)

(** The service time of a row: the configured constant for a logistics
    truck, zero for every other vehicle. *)
Definition service_time_of (r : gmap string cell) : float :=
  if bool_decide (get "vehicle_group" r = Str "logistics_truck")
  then SERVICE_TIME_PER_TRUCK_S else 0%float.

(** Every id of a table is text. *)
Definition text_ids (df : DataFrame) : bool :=
  forallb (fun r => match get "id" r with Str _ => true | _ => false end) (rows df).

(** The battery source gives nothing to merge: it is absent, or the loader
    found no usable data in it ([bat is None or bat.empty]). *)
Definition no_battery_data (battery : option (list node)) : bool :=
  match load_battery_totals battery with
  | Some bat => empty bat
  | None => true
  end.

(** The battery table can be merged into the table [df]: its ids are text,
    and [df] has no [energy_Wh] column of its own. *)
Definition battery_fits (battery : option (list node)) (df : DataFrame) : bool :=
  match load_battery_totals battery with
  | Some bat => text_column "id" bat && negb (has_col "energy_Wh" df)
  | None => false
  end.

(** A source the run accepts: the mandatory join succeeds, every trip record
    carries a text id, and the battery data, if there is any, can be
    merged. *)
Definition well_formed (doc : document) (battery : option (list node)) : bool :=
  match load_tripinfo_with_emissions doc with
  | Ok df => text_ids df && (no_battery_data battery || battery_fits battery df)
  | Raise _ => false
  end.

(** ** The Baseline variant

    The Baseline script reads its columns directly ([df["routeLength"] /
    1000.0]): a column that is absent raises, and so does arithmetic on a
    column that holds text.  It has no powertrain and no battery data, and
    its by-hub summary is grouped by hub alone. *)
Module Baseline.

(** [trip.join(em)]: no suffix is given, so that the join raises when the
    two tables share a column name. *)
Definition load_tripinfo_with_emissions (doc : document) : result DataFrame :=
  trip ← read_xml (tripinfo doc);
  em ← read_xml (emissions doc);
  join "" trip em.

(** [df[c]] as an operand of arithmetic. *)
Definition numeric_column (c : string) (df : DataFrame) : result unit :=
  if negb (has_col c df) then Raise (KeyError c)
  else if existsb (fun r => match get c r with Str _ => true | _ => false end) (rows df)
  then Raise (TypeError "unsupported operand type(s): 'str' and 'float'")
  else mret ().

(** [# Basic metrics] *)
Definition basic_metrics (df : DataFrame) : DataFrame :=
  let df := with_column "distance_km"
    (fun r => Num (num (get "routeLength" r) / 1000)%float) df in
  let df := with_column "travel_time_min"
    (fun r => Num (num (get "duration" r) / 60)%float) df in
  df.

(** [# Emissions & fuel] *)
Definition emissions_and_fuel (df : DataFrame) : DataFrame :=
  let df := with_column "CO2_g" (fun r => Num (num (get "CO2_abs" r) / 1000)%float) df in
  let df := with_column "CO2_kg" (fun r => Num (num (get "CO2_abs" r) / 1000000)%float) df in
  let df := with_column "fuel_g" (fun r => Num (num (get "fuel_abs" r) / 1000)%float) df in
  let df := with_column "fuel_kg" (fun r => Num (num (get "fuel_abs" r) / 1000000)%float) df in
  df.

(** [# Service / discharge time] *)
Definition service_time (df : DataFrame) : DataFrame :=
  let df := with_column "service_time_s" (fun _ => Num 0%float) df in
  let df := assign_where
    (fun r => bool_decide (get "vehicle_group" r = Str "logistics_truck"))
    "service_time_s" (fun _ => Num SERVICE_TIME_PER_TRUCK_S) df in
  let df := with_column "driving_time_min"
    (fun r => Num ((num (get "duration" r) - num (get "service_time_s" r)) / 60)%float) df in
  df.

(** The per-vehicle table.  The operands of a section are checked where the
    section starts; the per-km section is the one of the 50-50 variant. *)
Definition per_vehicle_table (doc : document) : result DataFrame :=
  df ← load_tripinfo_with_emissions doc;
  _ ← column "id" df;
  df ← apply_str "vehicle_group" "id" classify_vehicle df;
  _ ← numeric_column "routeLength" df;
  _ ← numeric_column "duration" df;
  let df := basic_metrics df in
  _ ← numeric_column "CO2_abs" df;
  _ ← numeric_column "fuel_abs" df;
  let df := emissions_and_fuel df in
  let df := per_km_metrics df in
  let df := service_time df in
  mret df.

Definition group_spec : list (string * (string * how)) :=
  [ ("mean_travel_time_min", ("travel_time_min", Mean));
    ("mean_driving_time_min", ("driving_time_min", Mean));
    ("mean_distance_km", ("distance_km", Mean));
    ("total_CO2_kg", ("CO2_kg", Sum));
    ("mean_CO2_kg", ("CO2_kg", Mean));
    ("mean_CO2_kg_per_km", ("CO2_kg_per_km", Mean)) ].

(** [df.groupby(by)], with the default [dropna=True]. *)
Definition groupby_dropna (by_ : string) (rs : list (gmap string cell))
    : list (cell * list (gmap string cell)) :=
  groupby cell_le (get by_) (filter (fun r => notna (get by_ r) = true) rs).

Record outputs : Type := mkOutputs {
  vehicles_with_emissions : DataFrame;
  logistics_trucks_detailed : DataFrame;
  summary_by_group : list (GroupSummaryRow cell);
  summary_trucks_by_hub : option (list (GroupSummaryRow cell))
}.

Definition main (doc : document) : result outputs :=
  df ← per_vehicle_table doc;
  let group_summary :=
    agg group_spec (rows df) <$> groupby_dropna "vehicle_group" (rows df) in
  let trucks := logistics_trucks df in
  trucks_hub ←
    (if negb (empty trucks) then
       trucks ← apply_str "hub" "id" hub_from_id trucks;
       mret (trucks, agg group_spec (rows trucks) <$> groupby_dropna "hub" (rows trucks))
     else mret (trucks, []));
  mret {| vehicles_with_emissions := df;
          logistics_trucks_detailed := trucks_hub.1;
          summary_by_group := group_summary;
          summary_trucks_by_hub :=
            match trucks_hub.2 with
            | [] => None
            | hub_summary => Some hub_summary
            end |}.

(** A source the Baseline run accepts: the join succeeds, every trip record
    carries a text id, and the four columns that enter the arithmetic are
    there and hold no text. *)
Definition well_formed (doc : document) : bool :=
  match load_tripinfo_with_emissions doc with
  | Ok df =>
      has_col "id" df && text_ids df &&
      is_ok (numeric_column "routeLength" df) && is_ok (numeric_column "duration" df) &&
      is_ok (numeric_column "CO2_abs" df) && is_ok (numeric_column "fuel_abs" df)
  | Raise _ => false
  end.

(** What the sections of the Baseline [main] establish for a row. *)
Record derived_row (r : gmap string cell) : Prop := {
  baseline_dr_id : ∃ veh_id, get "id" r = Str veh_id ∧
                    get "vehicle_group" r = Str (classify_vehicle veh_id);
  baseline_dr_distance_km :
    get "distance_km" r = Num (num (get "routeLength" r) / 1000)%float;
  baseline_dr_travel_time_min :
    get "travel_time_min" r = Num (num (get "duration" r) / 60)%float;
  baseline_dr_CO2_kg :
    get "CO2_kg" r = Num (num (get "CO2_abs" r) / 1000000)%float;
  baseline_dr_fuel_kg :
    get "fuel_kg" r = Num (num (get "fuel_abs" r) / 1000000)%float;
  baseline_dr_CO2_kg_per_km :
    get "CO2_kg_per_km" r = cell_div (get "CO2_kg" r) (replace_zero (get "distance_km" r));
  baseline_dr_fuel_kg_per_km :
    get "fuel_kg_per_km" r = cell_div (get "fuel_kg" r) (replace_zero (get "distance_km" r));
  baseline_dr_service_time_s :
    get "service_time_s" r = Num (service_time_of r);
  baseline_dr_driving_time_min :
    get "driving_time_min" r =
      Num ((num (get "duration" r) - num (get "service_time_s" r)) / 60)%float
}.

End Baseline.

(** The keys of a row of a parsed table are columns of the table. *)
Definition keys_in_columns (df : DataFrame) : Prop :=
  ∀ r c, r ∈ rows df → is_Some (r !! c) → c ∈ columns df.

(** ** Specification-side definitions *)

(** The ordered rules of [hub_from_id], as the specification lists them, and
    first-match evaluation of such a list. *)
Definition hub_rules : list (string * string) :=
  [ ("T_SPAR", "SPAR"); ("T_UCS", "UCS"); ("T_TGW", "TGW");
    ("T_ROS2", "Roswell2"); ("T_ROS34", "Roswell3&4") ].

Fixpoint first_match (rules : list (string * string)) (veh_id : string) : string :=
  match rules with
  | [] => "other"
  | rule :: rest =>
      if startswith veh_id rule.1 then rule.2 else first_match rest veh_id
  end.

(** What the sections of [main] establish for a row of the per-vehicle
    table, each column in terms of the other columns of the same row. *)
Record derived_row (battery : option (list node)) (r : gmap string cell) : Prop := {
  dr_id : ∃ veh_id, get "id" r = Str veh_id ∧
                    get "vehicle_group" r = Str (classify_vehicle veh_id);
  dr_distance_km :
    get "distance_km" r = Num (to_numeric (get "routeLength" r) / 1000)%float;
  dr_travel_time_min :
    get "travel_time_min" r = Num (to_numeric (get "duration" r) / 60)%float;
  dr_CO2_kg :
    get "CO2_kg" r = Num (to_numeric (get "CO2_abs" r) / 1000000)%float;
  dr_fuel_kg :
    get "fuel_kg" r = Num (to_numeric (get "fuel_abs" r) / 1000000)%float;
  dr_CO2_kg_per_km :
    get "CO2_kg_per_km" r = cell_div (get "CO2_kg" r) (replace_zero (get "distance_km" r));
  dr_fuel_kg_per_km :
    get "fuel_kg_per_km" r = cell_div (get "fuel_kg" r) (replace_zero (get "distance_km" r));
  dr_service_time_s :
    get "service_time_s" r = Num (service_time_of r);
  dr_driving_time_min :
    get "driving_time_min" r =
      Num ((to_numeric (get "duration" r) - num (get "service_time_s" r)) / 60)%float;
  dr_powertrain :
    get "powertrain" r = Str (powertrain_from_vtype (get "vType" r));
  dr_energy_kWh :
    no_battery_data battery = true → get "energy_kWh" r = NA;
  dr_indirect_CO2_kg :
    get "indirect_CO2_kg" r =
      if bool_decide (get "powertrain" r = Str "EV") && notna (get "energy_kWh" r)
      then Num (num (get "energy_kWh" r) * GRID_CO2_KG_PER_KWH)%float
      else Num 0%float
}.

(** Some element carries the attribute [c]. *)
Definition has_attribute (c : string) (nodes : list node) : bool :=
  existsb (fun n => bool_decide (c ∈ n.*1)) nodes.

(** The ids of the trip records of a document, in document order. *)
Definition trip_ids (doc : document) : list cell :=
  (fun t => get "id" (row_of t)) <$> tripinfo doc.

(** The id of a logistics truck: text that starts with [T_]. *)
Definition is_truck_id (c : cell) : bool :=
  match c with
  | Str s => startswith s "T_"
  | _ => false
  end.

(** The ids of the logistics trucks among the trip records of a
    document. *)
Definition truck_ids (doc : document) : list cell :=
  List.filter is_truck_id (trip_ids doc).

(** The battery total of the vehicle [k]: the row of the battery table with
    that id, if there is one. *)
Definition battery_row (bat : DataFrame) (k : cell) : option (gmap string cell) :=
  head (filter (fun b => get "id" b = k) (rows bat)).

(** The trip table after the loader has added the columns it expects. *)
Definition normalized_trip (trip : DataFrame) : DataFrame :=
  ensure_column "vType" (get "type")
    (ensure_column "duration" (fun _ => NA)
       (ensure_column "routeLength" (fun _ => NA) trip)).

(** The emissions record at the position [i], read at the column [c]:
    missing when there is no such record. *)
Definition emission_at (doc : document) (i : nat) (c : string) : cell :=
  from_option (fun e => get c (row_of e)) NA (emissions doc !! i).

(** The table [main] has built when it reaches the battery section, from
    the table the loader returned. *)
Definition before_battery (df0 : DataFrame) : DataFrame :=
  powertrain_detection (service_time (per_km_metrics (emissions_and_fuel (basic_metrics
    (with_column "vehicle_group"
       (fun r => match get "id" r with
                 | Str s => Str (classify_vehicle s)
                 | _ => NA
                 end) df0))))).

(** The columns [main] derives; every other column of the per-vehicle table
    comes from the source. *)
Definition derived_columns : list string :=
  [ "vehicle_group"; "distance_km"; "travel_time_min"; "CO2_g"; "CO2_kg"; "fuel_g";
    "fuel_kg"; "CO2_kg_per_km"; "fuel_kg_per_km"; "service_time_s"; "driving_time_min";
    "powertrain"; "energy_Wh"; "energy_kWh"; "indirect_CO2_kg"; "total_CO2_kg_combined" ].

(** ** Sample inputs *)

(** Two logistics trucks (one electric, one diesel), a background car that
    did not move, and a background truck; every trip has its emissions
    record. *)
Definition doc_fleet : document :=
  {| tripinfo :=
       [ [("id", Str "T_SPAR_1"); ("duration", Num 1200%float);
          ("routeLength", Num 8400%float); ("vType", Str "truck_ev")];
         [("id", Str "T_ROS34_2"); ("duration", Num 300%float);
          ("routeLength", Num 5000%float); ("vType", Str "truck_euro6")];
         [("id", Str "bgc_7"); ("duration", Num 90%float);
          ("routeLength", Num 0%float); ("vType", Str "car")];
         [("id", Str "bgt_3"); ("duration", Num 600%float);
          ("routeLength", Num 12000%float); ("vType", Str "truck_euro6")] ];
     emissions :=
       [ [("CO2_abs", Num 0%float); ("fuel_abs", Num 0%float)];
         [("CO2_abs", Num 2500000%float); ("fuel_abs", Num 800000%float)];
         [("CO2_abs", Num 1000%float); ("fuel_abs", Num 300%float)];
         [("CO2_abs", Num 7000000%float); ("fuel_abs", Num 2200000%float)] ] |}.

(** Battery records over two time steps: 50 kWh in total for each of the
    two logistics trucks. *)
Definition battery_fleet : list node :=
  [ [("id", Str "T_SPAR_1"); ("energyConsumed", Num 20000%float)];
    [("id", Str "T_ROS34_2"); ("energyConsumed", Num 50000%float)];
    [("id", Str "T_SPAR_1"); ("energyConsumed", Num 30000%float)] ].

(** Two trip records, and an emissions record for the first one only. *)
Definition doc_short_emissions : document :=
  {| tripinfo := [ [("id", Str "T_SPAR_1"); ("duration", Num 1200%float)];
                   [("id", Str "bgc_7"); ("duration", Num 300%float)] ];
     emissions := [ [("CO2_abs", Num 2500000%float); ("fuel_abs", Num 800000%float)] ] |}.

(** Battery records whose ids are numbers. *)
Definition battery_numeric_ids : list node :=
  [ [("id", Num 7%float); ("energyConsumed", Num 5%float)] ].

(** A run without logistics trucks. *)
Definition doc_background : document :=
  {| tripinfo :=
       [ [("id", Str "bgc_7"); ("duration", Num 90%float);
          ("routeLength", Num 700%float); ("vType", Str "car")];
         [("id", Str "bgt_3"); ("duration", Num 600%float);
          ("routeLength", Num 12000%float); ("vType", Str "truck_euro6")] ];
     emissions :=
       [ [("CO2_abs", Num 1000%float); ("fuel_abs", Num 300%float)];
         [("CO2_abs", Num 7000000%float); ("fuel_abs", Num 2200000%float)] ] |}.

(** The rows of a table that are logistics trucks. *)
Definition truck_rows (df : DataFrame) : list (gmap string cell) :=
  filter (fun r => get "vehicle_group" r = Str "logistics_truck") (rows df).

(** A column of a table that was produced, top to bottom. *)
Definition column_of (c : string) (m : result DataFrame) : option (list cell) :=
  match m with
  | Ok df => Some (get c <$> rows df)
  | Raise _ => None
  end.

(** The battery totals, as the specification describes them.  These
    definitions are written with the float operations alone; they share
    nothing with the embedding of the loader. *)

(** The readings of the energy column [c] for the vehicle [k]: the numbers
    in that column of the sub-records whose id is [k], in document order. *)
Definition readings (vdf : DataFrame) (c : string) (k : cell) : list float :=
  omap (fun r => match get c r with
                 | Num x => if PrimFloat.is_nan x then None else Some x
                 | _ => None
                 end)
       (filter (fun r => get "id" r = k) (rows vdf)).

(** Compensated summation of [xs] onto the running sum [s], whose
    compensation is [c]. *)
Fixpoint compensated (s c : float) (xs : list float) : float :=
  match xs with
  | [] => s
  | x :: xs' =>
      let y := (x - c)%float in
      let t := (s + y)%float in
      let c' := ((t - s) - y)%float in
      compensated t (if PrimFloat.is_nan c' then 0%float else c') xs'
  end.

(** The total of a list of readings: missing when there is none. *)
Definition total (xs : list float) : cell :=
  match xs with
  | [] => Num PrimFloat.nan
  | _ => Num (compensated 0%float 0%float xs)
  end.

(** The total of the energy column [c] over the sub-records of the vehicle
    [k]. *)
Definition per_id_total (vdf : DataFrame) (c : string) (k : cell) : cell :=
  total (readings vdf c k).

(** The numbers among a list of cells. *)
Definition present (cs : list cell) : list float :=
  c ← cs;
  match c with
  | Num x => if PrimFloat.is_nan x then [] else [x]
  | _ => []
  end.

(** The last resort: the totals of all discovered columns, added up one
    after the other; missing when no column has a total. *)
Definition all_columns_total (vdf : DataFrame) (energy_cols : list string)
    (k : cell) : cell :=
  match present ((fun c => per_id_total vdf c k) <$> energy_cols) with
  | [] => Num PrimFloat.nan
  | xs => Num (fold_left PrimFloat.add xs 0%float)
  end.

(** The authoritative total of the vehicle [k], by priority among the
    columns that were discovered. *)
Definition authoritative_total (vdf : DataFrame) (energy_cols : list string)
    (k : cell) : cell :=
  if bool_decide ("energyConsumed" ∈ energy_cols) then per_id_total vdf "energyConsumed" k
  else if bool_decide ("totalEnergyConsumed" ∈ energy_cols)
  then per_id_total vdf "totalEnergyConsumed" k
  else if bool_decide ("energy" ∈ energy_cols) then per_id_total vdf "energy" k
  else all_columns_total vdf energy_cols k.

(** The cells of the energy columns of a sub-record, made numeric. *)
Definition numeric_row (cols : list string) (r : gmap string cell) : gmap string cell :=
  foldl (fun r c => <[c := Num (to_numeric (get c r))]> r) r cols.

(** The row [groupby_sum] builds for the key [k] out of the rows [rs]. *)
Definition sum_row (by_ : string) (cols : list string)
    (rs : list (gmap string cell)) (k : cell) : gmap string cell :=
  <[by_ := k]>
    (list_to_map ((fun c => (c, sum_min_count1 (get c <$> filter (fun r => get by_ r = k) rs)))
                  <$> cols)).

(** A binary64 value is a negative zero. *)
Definition negative_zero (x : float) : Prop :=
  Prim2SF x = SpecFloat.S754_zero true.

(** * Supporting lemmas *)

(** ** The result monad *)

Lemma bind_ok {A B} (m : result A) (k : A → result B) (b : B) :
  m ≫= k = Ok b → ∃ a, m = Ok a ∧ k a = Ok b.
Proof. destruct m as [a|e]; simpl; [eauto|done]. Qed.

Lemma bind_Ok {A B} (a : A) (k : A → result B) : Ok a ≫= k = k a.
Proof. done. Qed.

Lemma bind_Raise {A B} (e : error) (k : A → result B) : Raise e ≫= k = Raise e.
Proof. done. Qed.

Lemma mret_ok {A} (a b : A) : (mret a : result A) = Ok b → a = b.
Proof. by intros [= ->]. Qed.

(** ** Rows and columns *)

Lemma get_insert (c c' : string) (v : cell) (r : gmap string cell) :
  get c (<[c' := v]> r) = if decide (c' = c) then v else get c r.
Proof. unfold get. rewrite lookup_insert. by destruct (decide (c' = c)). Qed.

Lemma has_col_spec c df : has_col c df = true ↔ c ∈ columns df.
Proof. unfold has_col. apply bool_decide_eq_true. Qed.

Lemma has_col_false c df : has_col c df = false ↔ c ∉ columns df.
Proof. unfold has_col. apply bool_decide_eq_false. Qed.

Lemma has_col_with_column c c' f df :
  has_col c (with_column c' f df) = has_col c df || bool_decide (c = c').
Proof.
  unfold with_column, has_col at 1; simpl.
  destruct (has_col c' df) eqn:E; unfold has_col in *.
  - destruct (bool_decide (c ∈ columns df)) eqn:E2; simpl; [done|].
    apply bool_decide_eq_true in E. apply bool_decide_eq_false in E2.
    symmetry. apply bool_decide_eq_false. congruence.
  - apply eq_true_iff_eq. rewrite orb_true_iff, !bool_decide_eq_true.
    rewrite elem_of_app, list_elem_of_singleton. done.
Qed.

Lemma has_col_keep c c' f df :
  has_col c df = true → has_col c (with_column c' f df) = true.
Proof. intros H. by rewrite has_col_with_column, H. Qed.

Lemma has_col_ensure c c' f df :
  has_col c (ensure_column c' f df) = has_col c df || bool_decide (c = c').
Proof.
  unfold ensure_column. destruct (has_col c' df) eqn:E.
  - destruct (bool_decide (c = c')) eqn:E2; [|by rewrite orb_false_r].
    apply bool_decide_eq_true in E2. subst. by rewrite E.
  - apply has_col_with_column.
Qed.

Lemma df_get_has df c d r : has_col c df = true → df_get df c d r = get c r.
Proof. unfold df_get. by intros ->. Qed.

Lemma with_column_elem c f df r :
  r ∈ rows (with_column c f df) → ∃ r0, r0 ∈ rows df ∧ r = <[c := f r0]> r0.
Proof. simpl. intros (r0 & -> & Hr0)%list_elem_of_fmap. eauto. Qed.

Lemma assign_where_elem mask c f df r :
  r ∈ rows (assign_where mask c f df) →
  ∃ r0, r0 ∈ rows df ∧ r = <[c := if mask r0 then f r0 else get c r0]> r0.
Proof. apply with_column_elem. Qed.

Lemma has_col_assign_where c mask c' f df :
  has_col c (assign_where mask c' f df) = has_col c df || bool_decide (c = c').
Proof. apply has_col_with_column. Qed.

Lemma with_column_has_columns c f df : columns (with_column c f df) ≠ [].
Proof.
  unfold with_column. simpl. destruct (has_col c df) eqn:E.
  - apply has_col_spec in E. intros Hnil. rewrite Hnil in E. by apply elem_of_nil in E.
  - intros Hnil. by apply app_eq_nil in Hnil as [_ ?].
Qed.

Lemma length_with_column c f df : length (rows (with_column c f df)) = length (rows df).
Proof. simpl. by rewrite length_fmap. Qed.

Ltac peel H :=
  repeat first
    [ apply assign_where_elem in H as (? & H & ->)
    | apply with_column_elem in H as (? & H & ->) ].

Ltac gets :=
  rewrite ?get_insert;
  repeat match goal with
         | |- context [decide (?a = ?b)] =>
             first [ rewrite (decide_True (P := a = b)) by done
                   | rewrite (decide_False (P := a = b)) by first [done | set_solver] ]
         end.

Ltac notin := solve [ apply (bool_decide_unpack _); vm_compute; exact I ].

Ltac other_column :=
  let E := fresh in
  intros E; subst;
  match goal with H : _ ∉ _ |- _ => apply H; notin end.

Lemma fmap_get_with_column (c c' : string) f df :
  c ≠ c' → get c <$> rows (with_column c' f df) = get c <$> rows df.
Proof.
  intros Hc. simpl. rewrite <- list_fmap_compose. apply list_fmap_ext.
  intros i r _. simpl. gets. done.
Qed.

Lemma fmap_get_assign_where (c c' : string) mask f df :
  c ≠ c' → get c <$> rows (assign_where mask c' f df) = get c <$> rows df.
Proof. apply fmap_get_with_column. Qed.

(** ** Lists *)

Lemma filter_fmap_list {A B} (f : A → B) (P : B → Prop) `{∀ x, Decision (P x)} (l : list A) :
  filter P (f <$> l) = f <$> filter (fun x => P (f x)) l.
Proof.
  induction l as [|x l IH]; [done|].
  rewrite fmap_cons, !filter_cons, IH. by destruct (decide (P (f x))).
Qed.

Lemma filter_all {A} (P : A → Prop) `{∀ x, Decision (P x)} (l : list A) :
  (∀ x, x ∈ l → P x) → filter P l = l.
Proof.
  induction l as [|x l IH]; intros Hall; [done|].
  rewrite filter_cons_True by (apply Hall; left).
  f_equal. apply IH. intros y Hy. apply Hall. by right.
Qed.

Lemma filter_ext_in {A} (P Q : A → Prop) `{∀ x, Decision (P x)} `{∀ x, Decision (Q x)}
    (l : list A) :
  (∀ x, x ∈ l → P x ↔ Q x) → filter P l = filter Q l.
Proof.
  induction l as [|x l IH]; intros Hext; [done|].
  rewrite !filter_cons. rewrite IH by (intros y Hy; apply Hext; by right).
  destruct (decide (P x)) as [HP|HP], (decide (Q x)) as [HQ|HQ]; try done;
    exfalso; apply (Hext x) in HP || apply (Hext x) in HQ; try done; left.
Qed.

(** The boolean filter of the Standard Library and the filter of stdpp. *)
Lemma filter_bool {A} (p : A → bool) (l : list A) :
  List.filter p l = filter (fun x => p x = true) l.
Proof.
  induction l as [|x l IH]; [done|]. simpl. rewrite filter_cons, IH.
  destruct (p x) eqn:E; by destruct (decide _).
Qed.

Lemma existsb_fmap {A B} (g : B → bool) (f : A → B) (l : list A) :
  existsb g (f <$> l) = existsb (fun x => g (f x)) l.
Proof. induction l as [|x l IH]; [done|]. rewrite fmap_cons. simpl. by rewrite IH. Qed.

Lemma forallb_fmap {A B} (g : B → bool) (f : A → B) (l : list A) :
  forallb g (f <$> l) = forallb (fun x => g (f x)) l.
Proof. induction l as [|x l IH]; [done|]. rewrite fmap_cons. simpl. by rewrite IH. Qed.

(** Rows of one key in a table whose keys are distinct. *)
Lemma filter_key_unique {A} (key : A → cell) (l : list A) (k : cell) :
  NoDup (key <$> l) →
  filter (fun b => key b = k) l = option_list (head (filter (fun b => key b = k) l)).
Proof.
  induction l as [|b l IH]; [done|]. rewrite fmap_cons. intros [Hb Hl]%NoDup_cons.
  rewrite filter_cons. destruct (decide (key b = k)) as [Hk|Hk]; [|by apply IH].
  simpl. f_equal. destruct (filter _ l) as [|b' l'] eqn:E; [done|]. exfalso.
  assert (b' ∈ filter (fun b => key b = k) l) as [Hk' Hb']%list_elem_of_filter.
  { rewrite E. apply elem_of_cons. by left. }
  apply Hb. rewrite Hk, <- Hk'. by apply list_elem_of_fmap_2.
Qed.

(** ** Names in order of first appearance *)

Lemma elem_of_unique (c : string) (l : list string) : c ∈ unique l ↔ c ∈ l.
Proof.
  induction l as [|a l IH]; simpl; [done|].
  rewrite !elem_of_cons, list_elem_of_filter, IH.
  destruct (decide (c = a)); naive_solver.
Qed.

Lemma NoDup_unique (l : list string) : NoDup (unique l).
Proof.
  induction l as [|a l IH]; simpl; [constructor|].
  apply NoDup_cons. split.
  - rewrite list_elem_of_filter. naive_solver.
  - by apply NoDup_filter.
Qed.

(** The first name of a list is the first of its distinct names. *)
Lemma unique_head (l : list string) : head (unique l) = head l.
Proof. by destruct l. Qed.

(** ** Reading the source *)

Lemma read_xml_ok nodes df :
  read_xml nodes = Ok df →
  columns df = unique (concat (map (map fst) nodes)) ∧
  rows df = row_of <$> nodes.
Proof.
  unfold read_xml. case_match; [done|].
  intros [= <-]. done.
Qed.

Lemma elem_of_read_columns (c : string) (nodes : list node) :
  c ∈ unique (concat (map (map fst) nodes)) ↔ has_attribute c nodes = true.
Proof.
  rewrite elem_of_unique. unfold has_attribute.
  induction nodes as [|n nodes IH]; simpl.
  - split; [by intros ?%elem_of_nil | done].
  - rewrite elem_of_app, orb_true_iff, bool_decide_eq_true, IH. done.
Qed.

Lemma has_col_read_xml (c : string) (nodes : list node) (df : DataFrame) :
  read_xml nodes = Ok df → has_col c df = has_attribute c nodes.
Proof.
  intros [Hc _]%read_xml_ok. apply eq_true_iff_eq.
  by rewrite has_col_spec, Hc, elem_of_read_columns.
Qed.

Lemma read_xml_keys nodes df : read_xml nodes = Ok df → keys_in_columns df.
Proof.
  intros [Hc Hr]%read_xml_ok r c. rewrite Hr, Hc.
  intros (n & -> & Hn)%list_elem_of_fmap [v Hv].
  apply elem_of_list_to_map_2 in Hv.
  apply elem_of_read_columns, existsb_exists. exists n.
  split; [by apply list_elem_of_In|]. apply bool_decide_eq_true.
  by apply (list_elem_of_fmap_2 fst) in Hv.
Qed.

Lemma read_xml_NoDup nodes df : read_xml nodes = Ok df → NoDup (columns df).
Proof. intros [-> _]%read_xml_ok. apply NoDup_unique. Qed.

Lemma read_xml_not_empty nodes df : read_xml nodes = Ok df → empty df = false.
Proof.
  intros Hread. pose proof (read_xml_ok _ _ Hread) as [Hc Hr].
  unfold read_xml in Hread. case_match eqn:E; [done|]. clear Hread.
  assert (∃ n, n ∈ nodes ∧ n ≠ []) as (n & Hn & Hne).
  { clear -E. induction nodes as [|n nodes IH]; simpl in E; [done|].
    apply andb_false_iff in E as [E|E].
    - exists n. split; [left|]. by apply bool_decide_eq_false in E.
    - destruct (IH E) as (n' & ? & ?). exists n'. split; [by right|done]. }
  assert (columns df ≠ []) as Hcols.
  { intros Hnil. destruct n as [|[c v] n]; [done|].
    assert (c ∈ columns df) as Hin.
    { rewrite Hc. apply elem_of_read_columns, existsb_exists. exists ((c, v) :: n).
      split; [by apply list_elem_of_In|]. apply bool_decide_eq_true. left. }
    rewrite Hnil in Hin. by apply elem_of_nil in Hin. }
  unfold empty. rewrite Hr. destruct (columns df); [done|].
  destruct nodes; [by apply elem_of_nil in Hn|done].
Qed.

Lemma ensure_keys c f df : keys_in_columns df → keys_in_columns (ensure_column c f df).
Proof.
  intros Hk r k. unfold ensure_column. destruct (has_col c df) eqn:E; [apply Hk|].
  intros (r0 & Hr0 & ->)%with_column_elem Hsome.
  apply has_col_spec. rewrite has_col_with_column.
  destruct (decide (k = c)) as [->|Hne].
  - by rewrite bool_decide_eq_true_2, orb_true_r.
  - rewrite lookup_insert_ne in Hsome by done.
    apply orb_true_iff. left. apply has_col_spec. eauto.
Qed.

Lemma no_key_outside_columns df r c :
  keys_in_columns df → r ∈ rows df → has_col c df = false → r !! c = None.
Proof.
  intros Hk Hr Hc. destruct (r !! c) eqn:E; [|done].
  assert (has_col c df = true); [|congruence].
  apply has_col_spec. eapply Hk; eauto.
Qed.

(** ** The mandatory join *)

Lemma align_length ls rs : length (align ls rs) = length ls.
Proof. revert rs. induction ls as [|l ls IH]; intros rs; simpl; [done|]. by rewrite IH. Qed.

Lemma align_lookup ls rs i :
  align ls rs !! i = (fun l => (l, default ∅ (rs !! i))) <$> (ls !! i).
Proof.
  revert rs i. induction ls as [|l ls IH]; intros rs i; simpl; [done|].
  destruct i as [|i]; simpl.
  - by destruct rs.
  - rewrite IH. by destruct rs.
Qed.

Lemma align_fst ls rs : (align ls rs).*1 = ls.
Proof. revert rs. induction ls as [|l ls IH]; intros rs; simpl; [done|]. by rewrite IH. Qed.

Lemma rows_ensure c f df :
  rows (ensure_column c f df) =
  (fun r => if has_col c df then r else <[c := f r]> r) <$> rows df.
Proof.
  unfold ensure_column. destruct (has_col c df); simpl; [|done].
  by rewrite list_fmap_id.
Qed.

Lemma get_ensure_row c k (v : cell) df r :
  c ≠ k ∨ has_col k df = true →
  get c (if has_col k df then r else <[k := v]> r) = get c r.
Proof.
  intros [Hne | ->]; [|done].
  destruct (has_col k df); [done|]. rewrite get_insert. by rewrite decide_False.
Qed.

Lemma join_row_left c rsuffix left right l e :
  (∀ c', c' ∈ columns right → right_name rsuffix left c' ≠ c) →
  get c (join_row rsuffix left right (l, e)) = get c l.
Proof.
  intros Hc. unfold join_row, get; simpl. rewrite lookup_union_l; [done|].
  apply not_elem_of_list_to_map_1. rewrite <- list_fmap_compose.
  intros (c' & Heq & Hin)%list_elem_of_fmap. simpl in Heq.
  by eapply Hc.
Qed.

Lemma join_row_right c rsuffix left right l e :
  NoDup (columns right) →
  (∀ c', c' ∈ columns right → right_name rsuffix left c' = c') →
  c ∈ columns right → l !! c = None →
  get c (join_row rsuffix left right (l, e)) = get c e.
Proof.
  intros Hnd Hid Hc Hl. unfold join_row; simpl. unfold get at 1.
  rewrite lookup_union_r by done.
  erewrite elem_of_list_to_map_1; [done| |].
  - rewrite <- list_fmap_compose.
    rewrite (list_fmap_ext _ id (columns right)), list_fmap_id; [done|].
    intros i c' Hi. simpl. apply Hid. by eapply list_elem_of_lookup_2.
  - apply list_elem_of_fmap. exists c. split; [|done]. by rewrite Hid.
Qed.

(** A join that returns has built the joined table. *)
Lemma join_ok rsuffix left right df :
  join rsuffix left right = Ok df → df = joined rsuffix left right.
Proof.
  unfold join. repeat case_match; try done; by intros [= <-].
Qed.

(** Tables that share no column name are joined, whatever the suffix. *)
Lemma join_disjoint rsuffix left right :
  (∀ c, c ∈ columns right → has_col c left = false) →
  join rsuffix left right = Ok (joined rsuffix left right).
Proof.
  intros Hdis. unfold join.
  destruct (forallb _ (columns right)) eqn:E; [done|].
  apply not_true_iff_false in E. exfalso. apply E, forallb_forall.
  intros c Hc%list_elem_of_In. by rewrite Hdis.
Qed.

(** Without a suffix, tables that share a column name are not joined. *)
Lemma join_overlap left right :
  (∃ c, c ∈ columns right ∧ has_col c left = true) →
  join "" left right = Raise (ValueError "columns overlap but no suffix specified").
Proof.
  intros (c & Hc & Hin). unfold join.
  destruct (forallb _ (columns right)) eqn:E; [|done].
  rewrite forallb_forall in E. apply list_elem_of_In, E in Hc.
  by rewrite Hin in Hc.
Qed.

Lemma join_no_suffix_ok left right df :
  join "" left right = Ok df → ∀ c, c ∈ columns right → has_col c left = false.
Proof.
  unfold join. destruct (forallb _ (columns right)) eqn:E; [|done].
  intros _ c Hc. rewrite forallb_forall in E. apply list_elem_of_In, E in Hc.
  by apply negb_true_iff in Hc.
Qed.

(** ** The loader, column by column *)

Ltac not_suffixed :=
  let c := fresh "c" in
  intros c; do 12 (destruct c as [|? c]; [simpl; discriminate|]); simpl; discriminate.

Lemma source_names_not_suffixed (c : string) :
  c ∈ ["id"; "routeLength"; "duration"; "vType"; "CO2_abs"; "fuel_abs"] →
  ∀ c', (c' ++ "_em")%string ≠ c.
Proof.
  intros Hc. repeat (apply elem_of_cons in Hc as [-> | Hc]; [not_suffixed|]).
  by apply elem_of_nil in Hc.
Qed.

Lemma load_stages doc df :
  load_tripinfo_with_emissions doc = Ok df →
  ∃ trip em, read_xml (tripinfo doc) = Ok trip ∧ read_xml (emissions doc) = Ok em ∧
    has_col "id" trip = true ∧
    join "_em" (normalized_trip trip) em = Ok (joined "_em" (normalized_trip trip) em) ∧
    df = ensure_column "fuel_abs" (fun _ => Num 0%float)
           (ensure_column "CO2_abs" (fun _ => Num 0%float)
              (joined "_em" (normalized_trip trip) em)).
Proof.
  unfold load_tripinfo_with_emissions.
  intros (trip & Ht & H)%bind_ok.
  destruct (has_col "id" trip) eqn:Hid; simpl in H; [|done].
  apply bind_ok in H as (em & Hem & H). apply bind_ok in H as (df1 & Hj & H).
  apply mret_ok in H as <-. exists trip, em.
  pose proof (join_ok _ _ _ _ Hj) as ->. split_and!; done.
Qed.

Lemma has_col_normalized_trip (c : string) trip :
  has_col c (normalized_trip trip) =
  has_col c trip || bool_decide (c ∈ ["routeLength"; "duration"; "vType"]).
Proof.
  unfold normalized_trip. rewrite !has_col_ensure.
  destruct (has_col c trip); [done|]. simpl.
  apply eq_true_iff_eq. rewrite !orb_true_iff, !bool_decide_eq_true.
  rewrite !elem_of_cons, elem_of_nil. naive_solver.
Qed.

(** The loader returns a table when the two collections can be read, the
    trip records carry an id, and no emissions attribute has the name of a
    column of the trip table. *)
Lemma load_is_ok doc trip em :
  read_xml (tripinfo doc) = Ok trip → has_col "id" trip = true →
  read_xml (emissions doc) = Ok em →
  (∀ c, c ∈ columns em → has_col c (normalized_trip trip) = false) →
  load_tripinfo_with_emissions doc =
    Ok (ensure_column "fuel_abs" (fun _ => Num 0%float)
          (ensure_column "CO2_abs" (fun _ => Num 0%float)
             (joined "_em" (normalized_trip trip) em))).
Proof.
  intros Ht Hid Hem Hdis. unfold load_tripinfo_with_emissions.
  rewrite Ht, bind_Ok, Hid. cbn [negb]. rewrite Hem, bind_Ok.
  fold (normalized_trip trip). by rewrite (join_disjoint _ _ _ Hdis).
Qed.

(** The columns the loader guarantees. *)
Lemma load_columns doc df :
  load_tripinfo_with_emissions doc = Ok df →
  has_col "id" df = true ∧ has_col "routeLength" df = true ∧
  has_col "duration" df = true ∧ has_col "vType" df = true ∧
  has_col "CO2_abs" df = true ∧ has_col "fuel_abs" df = true.
Proof.
  intros (trip & em & _ & _ & Hid & _ & ->)%load_stages.
  assert (∀ c, has_col c (normalized_trip trip) = true →
               has_col c (joined "_em" (normalized_trip trip) em) = true) as Hj.
  { intros c Hc%has_col_spec. apply has_col_spec. simpl. apply elem_of_app. by left. }
  rewrite !has_col_ensure.
  rewrite !Hj by (rewrite has_col_normalized_trip, ?Hid; simpl; rewrite ?orb_true_r; done).
  simpl. rewrite !orb_true_r. done.
Qed.

(** A column of the trip table keeps its cells through the join and the
    defaults for the emission columns. *)
Lemma load_left_column doc df trip (c : string) :
  load_tripinfo_with_emissions doc = Ok df →
  read_xml (tripinfo doc) = Ok trip →
  c ∈ ["id"; "routeLength"; "duration"; "vType"] →
  get c <$> rows df = get c <$> rows (normalized_trip trip).
Proof.
  intros (trip' & em & Ht & Hem & Hid & _ & ->)%load_stages Ht' Hc.
  assert (trip' = trip) as -> by congruence.
  assert (Hsuf : ∀ c', (c' ++ "_em")%string ≠ c).
  { apply source_names_not_suffixed. clear -Hc. set_solver. }
  assert (Hcol : has_col c (normalized_trip trip) = true).
  { rewrite has_col_normalized_trip.
    repeat (apply elem_of_cons in Hc as [-> | Hc]; [by rewrite ?Hid, ?orb_true_r|]).
    by apply elem_of_nil in Hc. }
  assert (c ≠ "CO2_abs" ∧ c ≠ "fuel_abs") as [H1 H2].
  { split; intros ->; clear -Hc; set_solver. }
  rewrite !rows_ensure. cbn [rows joined]. rewrite <- !list_fmap_compose.
  rewrite <- (align_fst (rows (normalized_trip trip)) (rows em)) at 2.
  rewrite <- list_fmap_compose. apply list_fmap_ext. intros i [l e] _. simpl.
  rewrite !get_ensure_row by (by left).
  apply join_row_left. intros c' _. unfold right_name.
  destruct (has_col c' (normalized_trip trip)) eqn:E; [apply Hsuf|]. intros ->. congruence.
Qed.

(** A column the trip records do not have reads as missing in the
    normalized trip table, as it does in the records. *)
Lemma normalized_trip_rows doc trip :
  read_xml (tripinfo doc) = Ok trip →
  rows (normalized_trip trip) =
  (fun t => let r := row_of t in
            let r := if has_col "routeLength" trip then r else <["routeLength" := NA]> r in
            let r := if has_col "duration" trip then r else <["duration" := NA]> r in
            if has_col "vType" trip then r else <["vType" := get "type" r]> r)
    <$> tripinfo doc.
Proof.
  intros Ht. pose proof (read_xml_ok _ _ Ht) as [_ Hrt].
  unfold normalized_trip. rewrite !rows_ensure, Hrt, <- !list_fmap_compose.
  apply list_fmap_ext. intros i t _. simpl.
  rewrite !has_col_ensure.
  replace (bool_decide ("duration" = "routeLength")) with false by done.
  replace (bool_decide ("vType" = "routeLength")) with false by done.
  replace (bool_decide ("vType" = "duration")) with false by done.
  by rewrite !orb_false_r.
Qed.

Lemma load_trip_columns doc df :
  load_tripinfo_with_emissions doc = Ok df →
  get "id" <$> rows df = trip_ids doc ∧
  get "routeLength" <$> rows df = (fun t => get "routeLength" (row_of t)) <$> tripinfo doc ∧
  get "duration" <$> rows df = (fun t => get "duration" (row_of t)) <$> tripinfo doc ∧
  get "vType" <$> rows df =
    (fun t => get (if has_attribute "vType" (tripinfo doc) then "vType" else "type") (row_of t))
      <$> tripinfo doc.
Proof.
  intros Hload. destruct (load_stages _ _ Hload) as (trip & em & Ht & _ & Hid & _).
  pose proof (read_xml_keys _ _ Ht) as Hk. pose proof (read_xml_ok _ _ Ht) as [_ Hrt].
  assert (Hnone : ∀ t c, t ∈ tripinfo doc → has_col c trip = false → row_of t !! c = None).
  { intros t c Hin Hc. eapply no_key_outside_columns; [exact Hk| |exact Hc].
    rewrite Hrt. by apply list_elem_of_fmap_2. }
  unfold trip_ids.
  rewrite !(load_left_column _ _ _ _ Hload Ht) by (clear; set_solver).
  rewrite (normalized_trip_rows _ _ Ht), <- !list_fmap_compose.
  rewrite <- (has_col_read_xml "vType" _ _ Ht).
  split_and!; apply list_fmap_ext; intros i t Hi%list_elem_of_lookup_2; simpl.
  - repeat (destruct (has_col _ trip)); by rewrite ?get_insert.
  - destruct (has_col "routeLength" trip) eqn:E1; destruct (has_col "duration" trip);
      destruct (has_col "vType" trip); gets; try done;
      unfold get; by rewrite (Hnone t "routeLength" Hi E1).
  - destruct (has_col "routeLength" trip); destruct (has_col "duration" trip) eqn:E2;
      destruct (has_col "vType" trip); gets; try done;
      unfold get; by rewrite (Hnone t "duration" Hi E2).
  - destruct (has_col "routeLength" trip); destruct (has_col "duration" trip);
      destruct (has_col "vType" trip); gets; done.
Qed.

(** The cells of a joined table in a column of the right table, when the
    two tables share no column name: the cells of the right row at the same
    position, and missing past the end of the right table. *)
Lemma joined_right_cell rsuffix left right i r (c : string) :
  keys_in_columns left → NoDup (columns right) →
  (∀ c', c' ∈ columns right → has_col c' left = false) →
  rows (joined rsuffix left right) !! i = Some r → c ∈ columns right →
  get c r = from_option (get c) NA (rows right !! i).
Proof.
  intros Hk Hnd Hdis Hi Hc. cbn [rows joined] in Hi.
  rewrite list_lookup_fmap, align_lookup in Hi.
  destruct (rows left !! i) as [l|] eqn:Hl; [|done]. simpl in Hi.
  injection Hi as <-. rewrite join_row_right; [| done | | done |].
  - by destruct (rows right !! i).
  - intros c' Hc'. unfold right_name. by rewrite Hdis.
  - eapply no_key_outside_columns; [exact Hk | | by apply Hdis].
    by eapply list_elem_of_lookup_2.
Qed.

Lemma normalized_trip_keys trip nodes :
  read_xml nodes = Ok trip → keys_in_columns (normalized_trip trip).
Proof. intros Ht. unfold normalized_trip. eauto using ensure_keys, read_xml_keys. Qed.

(** The emissions columns of the loaded table. *)
Lemma load_emission_columns doc trip em df :
  read_xml (tripinfo doc) = Ok trip → read_xml (emissions doc) = Ok em →
  load_tripinfo_with_emissions doc = Ok df →
  (∀ c, c ∈ columns em → has_col c (normalized_trip trip) = false) →
  ∀ i r, rows df !! i = Some r → ∀ c, c ∈ columns em → get c r = emission_at doc i c.
Proof.
  intros Ht Hem (trip' & em' & Ht' & Hem' & _ & _ & ->)%load_stages Hdis i r Hi c Hc.
  assert (trip' = trip) as -> by congruence. assert (em' = em) as -> by congruence.
  set (df1 := joined "_em" (normalized_trip trip) em) in *.
  assert (Hc1 : has_col c df1 = true).
  { apply has_col_spec. unfold df1, joined. simpl. apply elem_of_app. right.
    apply list_elem_of_fmap. exists c. split; [|done].
    unfold right_name. by rewrite Hdis. }
  rewrite !rows_ensure, !list_lookup_fmap in Hi.
  destruct (rows df1 !! i) as [r1|] eqn:Hr1; [|done]. simpl in Hi. injection Hi as <-.
  rewrite get_ensure_row.
  2:{ destruct (decide (c = "fuel_abs")) as [->|]; [right|by left].
      by rewrite has_col_ensure, Hc1. }
  rewrite get_ensure_row.
  2:{ destruct (decide (c = "CO2_abs")) as [->|]; [by right|by left]. }
  rewrite (joined_right_cell _ _ _ _ _ c (normalized_trip_keys _ _ Ht)
             (read_xml_NoDup _ _ Hem) Hdis Hr1 Hc).
  unfold emission_at. pose proof (read_xml_ok _ _ Hem) as [_ ->].
  rewrite list_lookup_fmap. by destruct (emissions doc !! i).
Qed.

Lemma load_emission_default doc df (c : string) :
  load_tripinfo_with_emissions doc = Ok df →
  c ∈ ["CO2_abs"; "fuel_abs"] →
  has_attribute c (tripinfo doc) = false → has_attribute c (emissions doc) = false →
  ∀ r, r ∈ rows df → get c r = Num 0%float.
Proof.
  intros (trip & em & Ht & Hem & Hid & _ & ->)%load_stages Hc Hnt Hne.
  set (df1 := joined "_em" (normalized_trip trip) em).
  assert (Hno : has_col c df1 = false).
  { apply not_true_iff_false. rewrite has_col_spec. unfold df1, joined. cbn [columns].
    rewrite elem_of_app. intros [Hin | Hin].
    - apply has_col_spec in Hin.
      rewrite has_col_normalized_trip, (has_col_read_xml c _ _ Ht), Hnt in Hin.
      repeat (apply elem_of_cons in Hc as [-> | Hc]; [done|]). by apply elem_of_nil in Hc.
    - apply list_elem_of_fmap in Hin as (c' & Heq & Hin). unfold right_name in Heq.
      destruct (has_col c' (normalized_trip trip)).
      + symmetry in Heq. revert Heq. apply source_names_not_suffixed. clear -Hc. set_solver.
      + subst c'. apply has_col_spec in Hin.
        rewrite (has_col_read_xml c _ _ Hem) in Hin. congruence. }
  intros r. rewrite !rows_ensure, <- list_fmap_compose.
  intros (r0 & -> & _)%list_elem_of_fmap. simpl.
  apply elem_of_cons in Hc as [-> | Hc].
  - rewrite get_ensure_row by (by left). rewrite Hno. by rewrite get_insert, decide_True.
  - apply list_elem_of_singleton in Hc as ->.
    rewrite has_col_ensure, Hno. simpl. by rewrite get_insert, decide_True.
Qed.

Lemma load_missing_is_NA doc df (c : string) :
  load_tripinfo_with_emissions doc = Ok df →
  c ∈ ["routeLength"; "duration"] → has_attribute c (tripinfo doc) = false →
  ∀ r, r ∈ rows df → get c r = NA.
Proof.
  intros Hload Hc Hno r Hr.
  destruct (load_trip_columns _ _ Hload) as (_ & Hrl & Hdu & _).
  destruct (load_stages _ _ Hload) as (trip & _ & Ht & _).
  pose proof (read_xml_keys _ _ Ht) as Hk. pose proof (read_xml_ok _ _ Ht) as [_ Hrt].
  assert (get c r ∈ get c <$> rows df) as Hin by (by apply list_elem_of_fmap_2).
  assert (get c <$> rows df = (fun t => get c (row_of t)) <$> tripinfo doc) as Heq.
  { repeat (apply elem_of_cons in Hc as [-> | Hc]; [done|]). by apply elem_of_nil in Hc. }
  rewrite Heq in Hin. apply list_elem_of_fmap in Hin as (t & -> & Ht').
  unfold get. rewrite (no_key_outside_columns trip (row_of t) c); [done | done | |].
  - rewrite Hrt. by apply list_elem_of_fmap_2.
  - by rewrite (has_col_read_xml c _ _ Ht).
Qed.

(** ** The Baseline loader *)

Lemma baseline_load_stages doc df :
  Baseline.load_tripinfo_with_emissions doc = Ok df →
  ∃ trip em, read_xml (tripinfo doc) = Ok trip ∧ read_xml (emissions doc) = Ok em ∧
    (∀ c, c ∈ columns em → has_col c trip = false) ∧
    df = joined "" trip em.
Proof.
  unfold Baseline.load_tripinfo_with_emissions.
  intros (trip & Ht & H)%bind_ok. apply bind_ok in H as (em & Hem & H).
  exists trip, em. split_and!; [done | done | by eapply join_no_suffix_ok |].
  by apply join_ok in H.
Qed.

Lemma baseline_load_length doc df :
  Baseline.load_tripinfo_with_emissions doc = Ok df →
  length (rows df) = length (tripinfo doc).
Proof.
  intros (trip & em & Ht & Hem & Hdis & ->)%baseline_load_stages.
  pose proof (read_xml_ok _ _ Ht) as [_ Hrt]. cbn [rows joined].
  by rewrite length_fmap, align_length, Hrt, length_fmap.
Qed.

(** The ids of the joined table are the ids of the trip records, when these
    carry an id. *)
Lemma baseline_load_ids doc df :
  Baseline.load_tripinfo_with_emissions doc = Ok df →
  has_attribute "id" (tripinfo doc) = true →
  get "id" <$> rows df = trip_ids doc.
Proof.
  intros (trip & em & Ht & Hem & Hdis & ->)%baseline_load_stages Hid.
  rewrite <- (has_col_read_xml "id" _ _ Ht) in Hid.
  pose proof (read_xml_ok _ _ Ht) as [_ Hrt].
  unfold trip_ids. cbn [rows joined]. rewrite Hrt.
  transitivity (get "id" <$> (row_of <$> tripinfo doc)); [|by rewrite <- list_fmap_compose].
  rewrite <- (align_fst (row_of <$> tripinfo doc) (rows em)) at 2.
  rewrite <- !list_fmap_compose. apply list_fmap_ext. intros i [l e] Hi. simpl.
  apply join_row_left. intros c' Hc' Heq. unfold right_name in Heq.
  rewrite (Hdis c' Hc') in Heq. subst c'. rewrite (Hdis "id" Hc') in Hid. done.
Qed.

(** The emissions columns of the joined table. *)
Lemma baseline_load_emission_columns doc em df :
  read_xml (emissions doc) = Ok em →
  Baseline.load_tripinfo_with_emissions doc = Ok df →
  ∀ i r, rows df !! i = Some r → ∀ c, c ∈ columns em → get c r = emission_at doc i c.
Proof.
  intros Hem (trip & em' & Ht & Hem' & Hdis & ->)%baseline_load_stages i r Hi c Hc.
  assert (em' = em) as -> by congruence.
  rewrite (joined_right_cell _ _ _ _ _ c (read_xml_keys _ _ Ht)
             (read_xml_NoDup _ _ Hem) Hdis Hi Hc).
  unfold emission_at. pose proof (read_xml_ok _ _ Hem) as [_ ->].
  rewrite list_lookup_fmap. by destruct (emissions doc !! i).
Qed.

(** ** The derived columns, section by section

    Each lemma gives the columns a section sets, in terms of the row it
    starts from, and states that it leaves every other column alone. *)

Lemma basic_metrics_row df r :
  has_col "routeLength" df = true → has_col "duration" df = true →
  r ∈ rows (basic_metrics df) →
  ∃ r0, r0 ∈ rows df ∧
    get "distance_km" r = Num (to_numeric (get "routeLength" r0) / 1000)%float ∧
    get "travel_time_min" r = Num (to_numeric (get "duration" r0) / 60)%float ∧
    ∀ c, c ∉ ["distance_km"; "travel_time_min"] → get c r = get c r0.
Proof.
  intros Hrl Hdu Hr. unfold basic_metrics in Hr. peel Hr.
  eexists. split; [exact Hr|].
  rewrite !df_get_has by (rewrite ?has_col_with_column, ?Hrl, ?Hdu; done).
  split_and!.
  - gets. done.
  - gets. done.
  - intros c Hc. gets. done.
Qed.

Lemma emissions_and_fuel_row df r :
  has_col "CO2_abs" df = true → has_col "fuel_abs" df = true →
  r ∈ rows (emissions_and_fuel df) →
  ∃ r0, r0 ∈ rows df ∧
    get "CO2_g" r = Num (to_numeric (get "CO2_abs" r0) / 1000)%float ∧
    get "CO2_kg" r = Num (to_numeric (get "CO2_abs" r0) / 1000000)%float ∧
    get "fuel_g" r = Num (to_numeric (get "fuel_abs" r0) / 1000)%float ∧
    get "fuel_kg" r = Num (to_numeric (get "fuel_abs" r0) / 1000000)%float ∧
    ∀ c, c ∉ ["CO2_g"; "CO2_kg"; "fuel_g"; "fuel_kg"] → get c r = get c r0.
Proof.
  intros Hco Hfu Hr. unfold emissions_and_fuel in Hr. peel Hr.
  eexists. split; [exact Hr|].
  rewrite !df_get_has by (rewrite ?has_col_with_column, ?Hco, ?Hfu; done).
  split_and!; try (intros c Hc); gets; done.
Qed.

Lemma per_km_metrics_row df r :
  r ∈ rows (per_km_metrics df) →
  ∃ r0, r0 ∈ rows df ∧
    get "CO2_kg_per_km" r = cell_div (get "CO2_kg" r0) (replace_zero (get "distance_km" r0)) ∧
    get "fuel_kg_per_km" r = cell_div (get "fuel_kg" r0) (replace_zero (get "distance_km" r0)) ∧
    ∀ c, c ∉ ["CO2_kg_per_km"; "fuel_kg_per_km"] → get c r = get c r0.
Proof.
  intros Hr. unfold per_km_metrics in Hr. peel Hr.
  eexists. split; [exact Hr|].
  split_and!; try (intros c Hc); gets; done.
Qed.

Lemma service_time_row df r :
  has_col "duration" df = true →
  r ∈ rows (service_time df) →
  ∃ r0, r0 ∈ rows df ∧
    get "service_time_s" r = Num (service_time_of r0) ∧
    get "driving_time_min" r =
      Num ((to_numeric (get "duration" r0) - service_time_of r0) / 60)%float ∧
    ∀ c, c ∉ ["service_time_s"; "driving_time_min"] → get c r = get c r0.
Proof.
  intros Hdu Hr. unfold service_time in Hr. peel Hr.
  eexists. split; [exact Hr|].
  rewrite !df_get_has
    by (rewrite ?has_col_with_column, ?has_col_assign_where, ?has_col_with_column, ?Hdu; done).
  unfold service_time_of.
  split_and!; try (intros c Hc); gets; try done.
  - by case_bool_decide.
  - by case_bool_decide.
Qed.

Lemma powertrain_detection_row df r :
  r ∈ rows (powertrain_detection df) →
  ∃ r0, r0 ∈ rows df ∧
    get "powertrain" r = Str (powertrain_from_vtype (get "vType" r0)) ∧
    ∀ c, c ∉ ["powertrain"] → get c r = get c r0.
Proof.
  intros Hr. unfold powertrain_detection in Hr. peel Hr.
  eexists. split; [exact Hr|].
  split_and!; try (intros c Hc); gets; done.
Qed.

Lemma indirect_CO2_row df r :
  r ∈ rows (indirect_CO2 df) →
  ∃ r0, r0 ∈ rows df ∧
    get "indirect_CO2_kg" r =
      (if bool_decide (get "powertrain" r0 = Str "EV") && notna (get "energy_kWh" r0)
       then Num (num (get "energy_kWh" r0) * GRID_CO2_KG_PER_KWH)%float
       else Num 0%float) ∧
    ∀ c, c ∉ ["indirect_CO2_kg"] → get c r = get c r0.
Proof.
  intros Hr. unfold indirect_CO2 in Hr. peel Hr.
  eexists. split; [exact Hr|].
  split_and!; try (intros c Hc); gets; done.
Qed.

Lemma combined_CO2_row df r :
  r ∈ rows (combined_CO2 df) →
  ∃ r0, r0 ∈ rows df ∧
    get "total_CO2_kg_combined" r =
      Num (fillna0 (get "CO2_kg" r0) + fillna0 (get "indirect_CO2_kg" r0))%float ∧
    ∀ c, c ∉ ["total_CO2_kg_combined"] → get c r = get c r0.
Proof.
  intros Hr. unfold combined_CO2 in Hr. peel Hr.
  eexists. split; [exact Hr|].
  split_and!; try (intros c Hc); gets; done.
Qed.

(** The columns a section reads are still there after the sections before
    it. *)
Lemma has_col_basic_metrics c df :
  has_col c df = true → has_col c (basic_metrics df) = true.
Proof. intros H. unfold basic_metrics. by rewrite !has_col_with_column, H. Qed.

Lemma has_col_emissions_and_fuel c df :
  has_col c df = true → has_col c (emissions_and_fuel df) = true.
Proof. intros H. unfold emissions_and_fuel. by rewrite !has_col_with_column, H. Qed.

Lemma has_col_per_km_metrics c df :
  has_col c df = true → has_col c (per_km_metrics df) = true.
Proof. intros H. unfold per_km_metrics. by rewrite !has_col_with_column, H. Qed.

(** ** Columns that pass through *)

Lemma fmap_get_basic_metrics (c : string) df :
  c ∉ ["distance_km"; "travel_time_min"] →
  get c <$> rows (basic_metrics df) = get c <$> rows df.
Proof. intros Hc. unfold basic_metrics. by rewrite !fmap_get_with_column by other_column. Qed.

Lemma fmap_get_emissions_and_fuel (c : string) df :
  c ∉ ["CO2_g"; "CO2_kg"; "fuel_g"; "fuel_kg"] →
  get c <$> rows (emissions_and_fuel df) = get c <$> rows df.
Proof.
  intros Hc. unfold emissions_and_fuel. by rewrite !fmap_get_with_column by other_column.
Qed.

Lemma fmap_get_per_km_metrics (c : string) df :
  c ∉ ["CO2_kg_per_km"; "fuel_kg_per_km"] →
  get c <$> rows (per_km_metrics df) = get c <$> rows df.
Proof.
  intros Hc. unfold per_km_metrics. by rewrite !fmap_get_with_column by other_column.
Qed.

Lemma fmap_get_service_time (c : string) df :
  c ∉ ["service_time_s"; "driving_time_min"] →
  get c <$> rows (service_time df) = get c <$> rows df.
Proof.
  intros Hc. unfold service_time.
  rewrite fmap_get_with_column, fmap_get_assign_where, fmap_get_with_column
    by other_column. done.
Qed.

Lemma fmap_get_powertrain_detection (c : string) df :
  c ∉ ["powertrain"] →
  get c <$> rows (powertrain_detection df) = get c <$> rows df.
Proof.
  intros Hc. unfold powertrain_detection. by rewrite fmap_get_with_column by other_column.
Qed.

Lemma fmap_get_indirect_CO2 (c : string) df :
  c ∉ ["indirect_CO2_kg"] →
  get c <$> rows (indirect_CO2 df) = get c <$> rows df.
Proof.
  intros Hc. unfold indirect_CO2.
  rewrite fmap_get_assign_where, fmap_get_with_column by other_column. done.
Qed.

Lemma fmap_get_combined_CO2 (c : string) df :
  c ∉ ["total_CO2_kg_combined"] →
  get c <$> rows (combined_CO2 df) = get c <$> rows df.
Proof.
  intros Hc. unfold combined_CO2. by rewrite fmap_get_with_column by other_column.
Qed.

(** The sections before the battery section leave the columns of the source
    alone, and add none that is named [energy_Wh]. *)
Lemma fmap_get_before_battery (c : string) df0 :
  c ∉ derived_columns →
  get c <$> rows (before_battery df0) = get c <$> rows df0.
Proof.
  intros Hc. unfold before_battery.
  rewrite fmap_get_powertrain_detection, fmap_get_service_time, fmap_get_per_km_metrics,
    fmap_get_emissions_and_fuel, fmap_get_basic_metrics, fmap_get_with_column;
    [done | other_column | ..];
    intros Hin; apply Hc; unfold derived_columns; clear -Hin; set_solver.
Qed.

Lemma has_col_before_battery (c : string) df0 :
  c ∉ [ "vehicle_group"; "distance_km"; "travel_time_min"; "CO2_g"; "CO2_kg"; "fuel_g";
        "fuel_kg"; "CO2_kg_per_km"; "fuel_kg_per_km"; "service_time_s"; "driving_time_min";
        "powertrain" ] →
  has_col c (before_battery df0) = has_col c df0.
Proof.
  intros Hc. unfold before_battery, powertrain_detection, service_time, per_km_metrics,
    emissions_and_fuel, basic_metrics.
  rewrite !has_col_with_column, !has_col_assign_where, !has_col_with_column.
  repeat (rewrite (bool_decide_eq_false_2 (c = _));
          [|intros ->; apply Hc; clear; set_solver]).
  by rewrite !orb_false_r.
Qed.

(** ** The battery section *)

Lemma load_battery_columns battery bat :
  load_battery_totals battery = Some bat → columns bat = ["id"; "energy_Wh"].
Proof.
  unfold load_battery_totals. destruct battery as [vehicles|]; [|done].
  case_bool_decide; [done|]. by intros [= <-].
Qed.

Lemma merged_elem df bat r :
  r ∈ rows (merged df bat) →
  ∃ r0 b, r0 ∈ rows df ∧
    r = merge_row (filter (fun c => c ≠ "id") (columns bat)) r0 b.
Proof.
  unfold merged; simpl. intros (r0 & Hr & Hr0)%list_elem_of_bind.
  destruct (filter _ (rows bat)) as [|m ms] eqn:E.
  - apply list_elem_of_singleton in Hr. eauto.
  - apply elem_of_cons in Hr as [-> | Hr]; [by eauto|].
    apply list_elem_of_fmap in Hr as (b & -> & _). eauto.
Qed.

(** With distinct ids in the right table, the merge keeps every left row
    once, in order. *)
Lemma merged_rows df bat :
  NoDup (get "id" <$> rows bat) →
  rows (merged df bat) =
  (fun r => merge_row (filter (fun c => c ≠ "id") (columns bat)) r (battery_row bat (get "id" r)))
    <$> rows df.
Proof.
  intros Hnd. unfold merged, battery_row. simpl.
  induction (rows df) as [|r rs IH]; [done|].
  rewrite fmap_cons, bind_cons, IH. clear IH.
  rewrite (filter_key_unique (get "id") (rows bat) (get "id" r) Hnd).
  by destruct (head _).
Qed.

Lemma get_merge_row (c : string) cols r b :
  get c (merge_row cols r b) =
  if bool_decide (c ∈ cols) then from_option (get c) NA b else get c r.
Proof.
  unfold merge_row. induction cols as [|c' cols IH]; simpl; [done|].
  rewrite get_insert. destruct (decide (c' = c)) as [->|Hc].
  - rewrite bool_decide_eq_true_2; [done|]. apply elem_of_cons. by left.
  - rewrite IH. apply (f_equal (fun b : bool => if b then _ else _)).
    apply bool_decide_ext. rewrite elem_of_cons. naive_solver.
Qed.

(** The columns the battery table shares with the table it is merged into:
    [energy_Wh], when that table has a column of this name. *)
Lemma battery_shared df bat :
  columns bat = ["id"; "energy_Wh"] →
  filter (fun c => c ≠ "id" ∧ c ∈ columns df) (columns bat) =
  if has_col "energy_Wh" df then ["energy_Wh"] else [].
Proof.
  intros ->. rewrite filter_cons_False by (by intros [? _]).
  destruct (has_col "energy_Wh" df) eqn:E.
  - apply has_col_spec in E. by rewrite filter_cons_True, filter_nil.
  - apply has_col_false in E. rewrite filter_cons_False; [done|]. by intros [_ ?].
Qed.

Lemma battery_right_cols bat :
  columns bat = ["id"; "energy_Wh"] →
  filter (fun c : string => c ≠ "id") (columns bat) = ["energy_Wh"].
Proof. by intros ->. Qed.

(** A table that has an [energy_Wh] column of its own has none after the
    merge: the suffixes rename both. *)
Lemma suffixed_energy_Wh df bat :
  columns bat = ["id"; "energy_Wh"] →
  has_col "energy_Wh"
    (merged (rename_columns (suffixed "_x" ["energy_Wh"]) df)
            (rename_columns (suffixed "_y" ["energy_Wh"]) bat)) = false.
Proof.
  intros Hbat. apply has_col_false. cbn [columns merged rename_columns]. rewrite Hbat.
  rewrite elem_of_app. intros [Hin | Hin].
  - apply list_elem_of_fmap in Hin as (c & Heq & _). unfold suffixed in Heq.
    case_bool_decide as Hc.
    + apply list_elem_of_singleton in Hc as ->. done.
    + subst c. apply Hc. left.
  - vm_compute in Hin. repeat (apply elem_of_cons in Hin as [Hin | Hin]; [done|]).
    by apply elem_of_nil in Hin.
Qed.

(** A merge of the battery table after which [df["energy_Wh"]] can be read
    has merged a table that had no such column. *)
Lemma merge_on_id_ok df bat df' :
  columns bat = ["id"; "energy_Wh"] →
  merge_on_id df bat = Ok df' → has_col "energy_Wh" df' = true →
  has_col "energy_Wh" df = false ∧ df' = merged df bat.
Proof.
  intros Hbat. unfold merge_on_id.
  destruct (_ && _ && _); [done|].
  rewrite (battery_shared _ _ Hbat).
  destruct (has_col "energy_Wh" df) eqn:E.
  - rewrite bool_decide_eq_false_2 by done.
    destruct (_ || _); [done|]. intros [= <-].
    by rewrite (suffixed_energy_Wh _ _ Hbat).
  - rewrite bool_decide_eq_true_2 by done. by intros [= <-].
Qed.

Lemma merge_on_id_total df bat :
  columns bat = ["id"; "energy_Wh"] →
  rows df = [] ∨ text_column "id" df = true → text_column "id" bat = true →
  has_col "energy_Wh" df = false →
  merge_on_id df bat = Ok (merged df bat).
Proof.
  intros Hbat Hdf Hb Hno. unfold merge_on_id.
  rewrite (battery_shared _ _ Hbat), Hno, Hb.
  rewrite (bool_decide_eq_true_2 ([] = [])) by done.
  destruct Hdf as [-> | ->]; [done|].
  by rewrite !andb_false_r.
Qed.

(** The merge raises on a battery table whose ids are numbers. *)
Lemma merge_on_id_raises df bat :
  rows df ≠ [] → rows bat ≠ [] →
  text_column "id" df = true → text_column "id" bat = false →
  ∃ msg, merge_on_id df bat = Raise (ValueError msg).
Proof.
  intros Hdf Hb Hl Hr. unfold merge_on_id.
  rewrite !bool_decide_eq_false_2, Hl, Hr by done. simpl. eauto.
Qed.

(** A table whose ids are all text has a key column of text. *)
Lemma text_column_of_text_ids df :
  (∀ r, r ∈ rows df → ∃ s, get "id" r = Str s) →
  rows df = [] ∨ text_column "id" df = true.
Proof.
  intros Hids. unfold text_column. destruct (rows df) as [|r rs]; [by left|].
  right. simpl. destruct (Hids r) as [s ->]; [left|]. done.
Qed.

(** What the battery section returns, when it returns. *)
Lemma battery_energy_ok battery df df' :
  battery_energy battery df = Ok df' →
  (no_battery_data battery = true ∧ df' = with_column "energy_kWh" (fun _ => NA) df) ∨
  (∃ bat, load_battery_totals battery = Some bat ∧ empty bat = false ∧
          has_col "energy_Wh" df = false ∧
          df' = with_column "energy_kWh" (fun r => Num (num (get "energy_Wh" r) / 1000)%float)
                  (with_column "energy_Wh" (fun r => Num (to_numeric (get "energy_Wh" r)))
                     (merged df bat))).
Proof.
  unfold battery_energy, no_battery_data.
  destruct (load_battery_totals battery) as [bat|] eqn:Hbat.
  - destruct (empty bat) eqn:Hemp; cbn [negb].
    + intros [= <-]. by left.
    + intros (df1 & Hm & H)%bind_ok. apply bind_ok in H as ([] & Hcol & H).
      apply mret_ok in H as <-. right. exists bat.
      unfold column in Hcol. destruct (has_col "energy_Wh" df1) eqn:E; [|done].
      destruct (merge_on_id_ok _ _ _ (load_battery_columns _ _ Hbat) Hm E) as [Hno ->].
      done.
  - intros [= <-]. by left.
Qed.

Lemma battery_energy_total battery df :
  rows df = [] ∨ text_column "id" df = true →
  no_battery_data battery = true ∨
    (∃ bat, load_battery_totals battery = Some bat ∧ text_column "id" bat = true ∧
            has_col "energy_Wh" df = false) →
  ∃ df', battery_energy battery df = Ok df'.
Proof.
  intros Hdf Hbat. unfold battery_energy, no_battery_data in *.
  destruct (load_battery_totals battery) as [bat|] eqn:E; [|by eauto].
  destruct (empty bat) eqn:Hemp; cbn [negb]; [by eauto|].
  destruct Hbat as [? | (bat' & [= <-] & Hb & Hno)]; [done|].
  pose proof (load_battery_columns _ _ E) as Hcols.
  rewrite (merge_on_id_total _ _ Hcols Hdf Hb Hno), bind_Ok.
  unfold column.
  assert (has_col "energy_Wh" (merged df bat) = true) as ->.
  { apply has_col_spec. cbn [columns merged]. rewrite (battery_right_cols _ Hcols).
    apply elem_of_app. right. left. }
  rewrite bind_Ok. eauto.
Qed.

Lemma battery_energy_row battery df df' r :
  battery_energy battery df = Ok df' → r ∈ rows df' →
  ∃ r0, r0 ∈ rows df ∧
    (∀ c, c ∉ ["energy_Wh"; "energy_kWh"] → get c r = get c r0) ∧
    (no_battery_data battery = true → get "energy_kWh" r = NA).
Proof.
  intros [[Hno ->] | (bat & Hbat & Hemp & _ & ->)]%battery_energy_ok Hr.
  - peel Hr. eexists. split; [exact Hr|].
    split; [intros c Hc|intros _]; gets; done.
  - peel Hr. apply merged_elem in Hr as (r0 & b & Hr0 & ->).
    rewrite (battery_right_cols _ (load_battery_columns _ _ Hbat)).
    exists r0. split; [done|]. split.
    + intros c Hc. simpl. gets. done.
    + unfold no_battery_data. rewrite Hbat. congruence.
Qed.

(** ** Grouped sums *)

Section groupby_facts.
Context {K : Type} `{EqDecision K} (R : relation K) `{!RelDecision R}.
Implicit Types (key : gmap string cell → K) (rs : list (gmap string cell)).

Lemma group_keys_perm key rs : group_keys R key rs ≡ₚ remove_dups (key <$> rs).
Proof. apply merge_sort_Permutation. Qed.

Lemma group_keys_NoDup key rs : NoDup (group_keys R key rs).
Proof. rewrite group_keys_perm. apply NoDup_remove_dups. Qed.

Lemma elem_of_group_keys key rs k :
  k ∈ group_keys R key rs ↔ ∃ r, r ∈ rs ∧ key r = k.
Proof.
  rewrite group_keys_perm, elem_of_remove_dups, list_elem_of_fmap. naive_solver.
Qed.

(** Over a duplicate-free list of keys that holds the key of a row, exactly
    one key counts the row. *)
Lemma one_key_counts (ks : list K) (k : K) :
  NoDup ks → k ∈ ks →
  sum_list_with (fun k' => if decide (k = k') then 1 else 0) ks = 1.
Proof.
  induction 1 as [|k0 ks Hnotin Hnd IH]; [by intros ?%elem_of_nil|].
  intros [-> | Hin]%elem_of_cons; simpl.
  - rewrite decide_True by done. f_equal.
    clear IH. induction ks as [|k1 ks IH]; simpl; [done|].
    rewrite decide_False by (clear -Hnotin; set_solver).
    apply IH; [clear -Hnotin; set_solver | by inversion Hnd].
  - rewrite decide_False by (intros ->; done). by apply IH.
Qed.

(** The groups partition the rows: over a duplicate-free list of keys that
    holds every key, the group sizes add up to the number of rows. *)
Lemma group_sizes_over_keys key rs (ks : list K) :
  NoDup ks → (∀ r, r ∈ rs → key r ∈ ks) →
  sum_list_with (fun k => length (filter (fun r => key r = k) rs)) ks = length rs.
Proof.
  intros Hnd. induction rs as [|r rs IH]; intros Hall.
  - simpl. induction ks; simpl; [done|]. apply IHks. by inversion Hnd. set_solver.
  - transitivity (sum_list_with (fun k => if decide (key r = k) then 1 else 0) ks +
                  sum_list_with (fun k => length (filter (fun r => key r = k) rs)) ks).
    + clear. induction ks as [|k ks IHk]; simpl; [done|].
      rewrite filter_cons. destruct (decide (key r = k)); simpl; lia.
    + rewrite one_key_counts, IH by set_solver. done.
Qed.

Lemma groupby_sizes key rs :
  sum_list_with (fun kg => length kg.2) (groupby R key rs) = length rs.
Proof.
  unfold groupby.
  transitivity (sum_list_with (fun k => length (filter (fun r => key r = k) rs))
                  (group_keys R key rs)).
  - induction (group_keys R key rs) as [|k ks IHk]; [done|].
    rewrite fmap_cons. simpl. by f_equal.
  - apply group_sizes_over_keys; [apply group_keys_NoDup|].
    intros r Hr. apply elem_of_group_keys. eauto.
Qed.

Lemma groupby_member key rs k g :
  (k, g) ∈ groupby R key rs → g = filter (fun r => key r = k) rs ∧ g ≠ [].
Proof.
  unfold groupby. intros (k' & [= -> ->] & Hk)%list_elem_of_fmap.
  split; [done|]. apply elem_of_group_keys in Hk as (r & Hr & Hkey).
  intros Hnil. assert (r ∈ filter (λ r, key r = k') rs) as Hin
    by (by apply list_elem_of_filter).
  rewrite Hnil in Hin. by apply elem_of_nil in Hin.
Qed.

Lemma groupby_nonempty key rs : rs ≠ [] → groupby R key rs ≠ [].
Proof.
  intros Hrs Hnil. apply (f_equal (sum_list_with (fun kg => length kg.2))) in Hnil.
  rewrite groupby_sizes in Hnil. simpl in Hnil. by destruct rs.
Qed.

End groupby_facts.

Lemma groupby_sum_rows by_ cols df :
  rows (groupby_sum by_ cols df) =
  sum_row by_ cols (filter (fun r => notna (get by_ r) = true) (rows df))
    <$> group_keys cell_le (get by_) (filter (fun r => notna (get by_ r) = true) (rows df)).
Proof. unfold groupby_sum, groupby. simpl. by rewrite <- list_fmap_compose. Qed.

Lemma get_sum_row_key by_ cols rs k : get by_ (sum_row by_ cols rs k) = k.
Proof. unfold sum_row. rewrite get_insert. by rewrite decide_True. Qed.

Lemma get_sum_row_col by_ cols rs k c :
  c ∈ cols → c ≠ by_ →
  get c (sum_row by_ cols rs k) =
  sum_min_count1 (get c <$> filter (fun r => get by_ r = k) rs).
Proof.
  intros Hc Hne. unfold sum_row. rewrite get_insert, decide_False by done.
  unfold get. erewrite elem_of_list_to_map_1'; [done| |].
  - intros y (c' & [= <- ->] & _)%list_elem_of_fmap. done.
  - apply list_elem_of_fmap. eauto.
Qed.

(** The battery table has one row per id. *)
Lemma groupby_sum_keys by_ cols df :
  get by_ <$> rows (groupby_sum by_ cols df) =
  group_keys cell_le (get by_) (filter (fun r => notna (get by_ r) = true) (rows df)).
Proof.
  rewrite groupby_sum_rows, <- list_fmap_compose.
  rewrite <- (list_fmap_id (group_keys _ _ _)) at 2.
  apply list_fmap_ext. intros i k _. simpl. apply get_sum_row_key.
Qed.

Lemma load_battery_ids_NoDup battery bat :
  load_battery_totals battery = Some bat → NoDup (get "id" <$> rows bat).
Proof.
  unfold load_battery_totals. destruct battery as [vehicles|]; [|done].
  case_bool_decide; [done|]. intros [= <-].
  rewrite groupby_sum_keys. apply group_keys_NoDup.
Qed.

(** The rows of the table the battery section returns. *)
Lemma battery_energy_rows battery df df' :
  battery_energy battery df = Ok df' →
  rows df' =
  match load_battery_totals battery with
  | Some bat =>
      if empty bat then (fun r => <["energy_kWh" := NA]> r) <$> rows df
      else (fun r =>
              let e := to_numeric (from_option (get "energy_Wh") NA
                                     (battery_row bat (get "id" r))) in
              <["energy_kWh" := Num (e / 1000)%float]> (<["energy_Wh" := Num e]> r))
           <$> rows df
  | None => (fun r => <["energy_kWh" := NA]> r) <$> rows df
  end.
Proof.
  intros [[Hno ->] | (bat & Hbat & Hemp & _ & ->)]%battery_energy_ok.
  - unfold no_battery_data in Hno.
    destruct (load_battery_totals battery) as [bat|]; [by rewrite Hno|done].
  - rewrite Hbat, Hemp. unfold with_column at 1 2. cbn [rows].
    rewrite merged_rows by (by eapply load_battery_ids_NoDup).
    rewrite (battery_right_cols _ (load_battery_columns _ _ Hbat)).
    rewrite <- !list_fmap_compose. apply list_fmap_ext. intros i r _. simpl.
    rewrite !get_insert. rewrite decide_True by done. simpl.
    f_equal. first [by rewrite insert_insert_eq | by rewrite insert_insert].
Qed.

Lemma fmap_get_battery_energy (c : string) battery df df' :
  battery_energy battery df = Ok df' →
  c ∉ ["energy_Wh"; "energy_kWh"] →
  get c <$> rows df' = get c <$> rows df.
Proof.
  intros Hen Hc. rewrite (battery_energy_rows _ _ _ Hen).
  assert (c ≠ "energy_Wh") by other_column.
  assert (c ≠ "energy_kWh") by other_column.
  destruct (load_battery_totals battery) as [bat|]; [destruct (empty bat)|];
    rewrite <- list_fmap_compose; apply list_fmap_ext; intros i r _; simpl; gets; done.
Qed.

(** ** The per-vehicle table *)

Lemma apply_str_ok c src f df df' :
  apply_str c src f df = Ok df' →
  df' = with_column c (fun r => match get src r with Str s => Str (f s) | _ => NA end) df ∧
  ∀ r, r ∈ rows df → ∃ s, get src r = Str s.
Proof.
  unfold apply_str. destruct (forallb _ (rows df)) eqn:E; [|done].
  intros [= <-]. split; [done|]. intros r Hr.
  rewrite forallb_forall in E. apply list_elem_of_In, E in Hr.
  destruct (get src r); try done. eauto.
Qed.

Lemma apply_str_total c src f df :
  (∀ r, r ∈ rows df → ∃ s, get src r = Str s) →
  apply_str c src f df =
    Ok (with_column c (fun r => match get src r with Str s => Str (f s) | _ => NA end) df).
Proof.
  intros Hs. unfold apply_str.
  destruct (forallb _ (rows df)) eqn:E; [done|].
  exfalso. apply not_true_iff_false in E. apply E.
  apply forallb_forall. intros r [s ->]%list_elem_of_In%Hs. done.
Qed.

Lemma text_ids_spec df :
  text_ids df = true ↔ ∀ r, r ∈ rows df → ∃ veh_id, get "id" r = Str veh_id.
Proof.
  unfold text_ids. rewrite forallb_forall. split.
  - intros H r Hr%list_elem_of_In. specialize (H r Hr).
    destruct (get "id" r); try done. eauto.
  - intros H r Hr%list_elem_of_In. by destruct (H r Hr) as [v ->].
Qed.

(** The per-vehicle table, as the sections applied one after the other to
    the loaded table. *)
Lemma per_vehicle_table_stages doc battery df :
  per_vehicle_table doc battery = Ok df →
  ∃ df0 df5, load_tripinfo_with_emissions doc = Ok df0 ∧
    (∀ r, r ∈ rows df0 → ∃ s, get "id" r = Str s) ∧
    battery_energy battery (before_battery df0) = Ok df5 ∧
    df = combined_CO2 (indirect_CO2 df5).
Proof.
  unfold per_vehicle_table.
  intros (df0 & Hload & H)%bind_ok. apply bind_ok in H as (df1 & Happ & H).
  cbv zeta in H. apply bind_ok in H as (df5 & Hen & H). apply mret_ok in H as <-.
  apply apply_str_ok in Happ as [-> Hstr]. exists df0, df5. done.
Qed.

(** Every column that is not a derived one is the column of the loaded
    table, row by row. *)
Lemma per_vehicle_source_columns doc battery df df0 (c : string) :
  per_vehicle_table doc battery = Ok df →
  load_tripinfo_with_emissions doc = Ok df0 →
  c ∉ derived_columns →
  get c <$> rows df = get c <$> rows df0.
Proof.
  intros (df0' & df5 & Hload & _ & Hen & ->)%per_vehicle_table_stages Hload' Hc.
  assert (df0' = df0) as -> by congruence.
  rewrite fmap_get_combined_CO2, fmap_get_indirect_CO2,
    (fmap_get_battery_energy c _ _ _ Hen), fmap_get_before_battery; [done|done|..];
    intros Hin; apply Hc; unfold derived_columns; clear -Hin; set_solver.
Qed.

(** The per-vehicle table has one row per trip record, in document order,
    with the id of the record. *)
Lemma per_vehicle_ids doc battery df :
  per_vehicle_table doc battery = Ok df → get "id" <$> rows df = trip_ids doc.
Proof.
  intros Hdf. destruct (per_vehicle_table_stages _ _ _ Hdf) as (df0 & _ & Hload & _).
  rewrite (per_vehicle_source_columns _ _ _ _ "id" Hdf Hload) by notin.
  by apply load_trip_columns.
Qed.

Lemma per_vehicle_length doc battery df :
  per_vehicle_table doc battery = Ok df → length (rows df) = length (tripinfo doc).
Proof.
  intros Hid%per_vehicle_ids. apply (f_equal length) in Hid.
  unfold trip_ids in Hid. by rewrite !length_fmap in Hid.
Qed.

(** Every row of the per-vehicle table has its derived columns as the
    sections of [main] compute them. *)
Lemma per_vehicle_row doc battery df r :
  per_vehicle_table doc battery = Ok df → r ∈ rows df → derived_row battery r.
Proof.
  intros (df0 & df5 & Hload & Hstr & Hen & ->)%per_vehicle_table_stages Hr.
  apply load_columns in Hload as (Hid & Hrl & Hdu & Hvt & Hco & Hfu).
  apply combined_CO2_row in Hr as (r7 & Hr & Hcomb & F8).
  apply indirect_CO2_row in Hr as (r6 & Hr & Hind & F7).
  apply (battery_energy_row _ _ _ _ Hen) in Hr as (r5 & Hr & F6 & Henergy).
  unfold before_battery in Hr.
  apply powertrain_detection_row in Hr as (r4 & Hr & Hpt & F5).
  apply service_time_row in Hr as (r3 & Hr & Hst & Hdt & F4);
    [|by apply has_col_per_km_metrics, has_col_emissions_and_fuel,
         has_col_basic_metrics, has_col_keep].
  apply per_km_metrics_row in Hr as (r2 & Hr & Hck & Hfk & F3).
  apply emissions_and_fuel_row in Hr as (r1 & Hr & _ & Hckg & _ & Hfkg & F2);
    [|by apply has_col_basic_metrics, has_col_keep..].
  apply basic_metrics_row in Hr as (r0 & Hr & Hdist & Htt & F1);
    [|by apply has_col_keep..].
  apply with_column_elem in Hr as (r00 & Hr & ->).
  destruct (Hstr _ Hr) as [veh_id Hveh].
  assert (Hgroup : get "vehicle_group" r = get "vehicle_group" r3).
  { rewrite F8, F7, F6, F5, F4 by notin. done. }
  split.
  - exists veh_id.
    rewrite !F8, !F7, !F6, !F5, !F4, !F3, !F2, !F1 by notin.
    gets. by rewrite Hveh.
  - rewrite !F8, !F7, !F6, !F5, !F4, !F3, !F2 by notin.
    rewrite Hdist. by rewrite !F1 by notin.
  - rewrite !F8, !F7, !F6, !F5, !F4, !F3, !F2 by notin.
    rewrite Htt. by rewrite !F1 by notin.
  - rewrite !F8, !F7, !F6, !F5, !F4, !F3 by notin.
    rewrite Hckg. by rewrite !F2 by notin.
  - rewrite !F8, !F7, !F6, !F5, !F4, !F3 by notin.
    rewrite Hfkg. by rewrite !F2 by notin.
  - rewrite !F8, !F7, !F6, !F5, !F4 by notin.
    rewrite Hck. by rewrite !F3 by notin.
  - rewrite !F8, !F7, !F6, !F5, !F4 by notin.
    rewrite Hfk. by rewrite !F3 by notin.
  - unfold service_time_of. rewrite Hgroup.
    rewrite !F8, !F7, !F6, !F5 by notin. rewrite Hst.
    done.
  - rewrite !F8, !F7, !F6, !F5 by notin. rewrite Hdt, Hst. by rewrite F4 by notin.
  - rewrite !F8, !F7, !F6 by notin. rewrite Hpt.
    by rewrite !F5 by notin.
  - intros Hno. rewrite !F8, !F7 by notin. by apply Henergy.
  - rewrite !F8 by notin. rewrite Hind. by rewrite !F7 by notin.
Qed.

(** ** The per-vehicle table is produced *)

Lemma well_formed_spec doc battery :
  well_formed doc battery = true →
  ∃ df0, load_tripinfo_with_emissions doc = Ok df0 ∧
    (∀ r, r ∈ rows df0 → ∃ s, get "id" r = Str s) ∧
    (no_battery_data battery = true ∨
     ∃ bat, load_battery_totals battery = Some bat ∧ text_column "id" bat = true ∧
            has_col "energy_Wh" df0 = false).
Proof.
  unfold well_formed, battery_fits.
  destruct (load_tripinfo_with_emissions doc) as [df0|]; [|done].
  intros [Hids Hbat]%andb_true_iff. exists df0. split; [done|].
  split; [by apply text_ids_spec|].
  apply orb_true_iff in Hbat as [? | Hfit]; [by left|]. right.
  destruct (load_battery_totals battery) as [bat|]; [|done].
  apply andb_true_iff in Hfit as [? ?%negb_true_iff]. eauto.
Qed.

Lemma per_vehicle_table_total doc battery :
  well_formed doc battery = true → ∃ df, per_vehicle_table doc battery = Ok df.
Proof.
  intros (df0 & Hload & Hids & Hbat)%well_formed_spec.
  unfold per_vehicle_table. rewrite Hload, bind_Ok.
  rewrite (apply_str_total _ _ _ _ Hids), bind_Ok. cbv zeta.
  fold (before_battery df0).
  destruct (battery_energy_total battery (before_battery df0)) as [df5 ->].
  - apply text_column_of_text_ids. intros r Hr.
    assert (get "id" r ∈ get "id" <$> rows (before_battery df0)) as Hin
      by (by apply list_elem_of_fmap_2).
    rewrite fmap_get_before_battery in Hin by notin.
    apply list_elem_of_fmap in Hin as (r0 & -> & Hr0). by apply Hids.
  - destruct Hbat as [? | (bat & ? & ? & ?)]; [by left|]. right. exists bat.
    by rewrite has_col_before_battery by notin.
  - rewrite bind_Ok. eauto.
Qed.

(** The run raises a [ValueError] on battery data whose ids are numbers. *)
Lemma per_vehicle_table_numeric_battery_ids doc battery df0 bat :
  load_tripinfo_with_emissions doc = Ok df0 → text_ids df0 = true →
  load_battery_totals battery = Some bat → empty bat = false →
  text_column "id" bat = false →
  ∃ msg, per_vehicle_table doc battery = Raise (ValueError msg).
Proof.
  intros Hload Hids' Hbat Hemp Hnum.
  pose proof (proj1 (text_ids_spec df0) Hids') as Hids.
  unfold per_vehicle_table. rewrite Hload, bind_Ok.
  rewrite (apply_str_total _ _ _ _ Hids), bind_Ok. cbv zeta.
  fold (before_battery df0). unfold battery_energy. rewrite Hbat, Hemp. cbn [negb].
  assert (Hrows : rows (before_battery df0) ≠ []).
  { intros Hnil. apply (f_equal length) in Hnil.
    unfold before_battery, powertrain_detection, service_time, per_km_metrics,
      emissions_and_fuel, basic_metrics, assign_where in Hnil.
    rewrite !length_with_column in Hnil. simpl in Hnil.
    destruct (load_stages _ _ Hload) as (trip & em & Ht & _ & _ & _ & ->).
    rewrite !rows_ensure, !length_fmap in Hnil. cbn [rows joined] in Hnil.
    rewrite length_fmap, align_length in Hnil.
    pose proof (read_xml_not_empty _ _ Ht) as Hne. unfold empty in Hne.
    unfold normalized_trip in Hnil. rewrite !rows_ensure, !length_fmap in Hnil.
    destruct (columns trip); [done|]. by destruct (rows trip). }
  destruct (merge_on_id_raises (before_battery df0) bat) as [msg ->]; [done | | | done | by eauto].
  - unfold empty in Hemp. rewrite (load_battery_columns _ _ Hbat) in Hemp.
    by destruct (rows bat).
  - destruct (text_column_of_text_ids (before_battery df0)) as [? | ?]; [|done..].
    intros r Hr.
    assert (get "id" r ∈ get "id" <$> rows (before_battery df0)) as Hin
      by (by apply list_elem_of_fmap_2).
    rewrite fmap_get_before_battery in Hin by notin.
    apply list_elem_of_fmap in Hin as (r0 & -> & Hr0). by apply Hids.
Qed.

(** ** Floating-point facts *)

(** Subtracting zero changes no binary64 value. *)
Lemma float_sub_zero (x : float) : (x - 0)%float = x.
Proof.
  apply FloatAxioms.Prim2SF_inj. rewrite FloatAxioms.sub_spec.
  change (Prim2SF 0%float) with (SpecFloat.S754_zero false).
  unfold FloatAxioms.SF64sub, SpecFloat.SFsub.
  destruct (Prim2SF x) as [[|]|[|]| |[|] m e]; reflexivity.
Qed.

Lemma is_nan_spec (x : float) :
  PrimFloat.is_nan x = match Prim2SF x with SpecFloat.S754_nan => true | _ => false end.
Proof.
  unfold PrimFloat.is_nan. rewrite FloatAxioms.eqb_spec.
  destruct (Prim2SF x) as [[|]|[|]| |[|] m e] eqn:E; try done;
    unfold SpecFloat.SFeqb, SpecFloat.SFcompare; simpl;
    try (rewrite Z.compare_refl; simpl);
    try (rewrite Pos.compare_refl; simpl); try done.
Qed.

Lemma nan_is_nan (x : float) : PrimFloat.is_nan x = true → x = PrimFloat.nan.
Proof.
  rewrite is_nan_spec. intros H. apply FloatAxioms.Prim2SF_inj.
  by destruct (Prim2SF x).
Qed.

Lemma float_zero_add (x : float) : ¬ negative_zero x → (0 + x)%float = x.
Proof.
  unfold negative_zero. intros Hx.
  apply FloatAxioms.Prim2SF_inj. rewrite FloatAxioms.add_spec.
  change (Prim2SF 0%float) with (SpecFloat.S754_zero false).
  unfold FloatAxioms.SF64add, SpecFloat.SFadd.
  destruct (Prim2SF x) as [[|]|[|]| |[|] m e]; done.
Qed.

(** The compensation after the first value of a sum is zero. *)
Lemma first_compensation (x : float) :
  PrimFloat.is_nan x = false →
  (let c := ((0 + x) - 0 - x)%float in if PrimFloat.is_nan c then 0%float else c) = 0%float.
Proof.
  intros Hx. cbv zeta. rewrite float_sub_zero.
  destruct (PrimFloat.is_nan (0 + x - x)) eqn:E; [done|].
  apply FloatAxioms.Prim2SF_inj.
  rewrite is_nan_spec in E, Hx.
  rewrite FloatAxioms.sub_spec, FloatAxioms.add_spec in *.
  change (Prim2SF 0%float) with (SpecFloat.S754_zero false) in *.
  unfold FloatAxioms.SF64sub, FloatAxioms.SF64add, SpecFloat.SFsub, SpecFloat.SFadd in *.
  destruct (Prim2SF x) as [[|]|[|]| |s m e]; try done.
  rewrite Z.sub_diag. reflexivity.
Qed.

(** ** Sums *)

(** The grouped sum of the embedding is the compensated sum. *)
Lemma foldl_kahan_compensated (s c : float) (xs : list float) :
  (foldl kahan_step (s, c) xs).1 = compensated s c xs.
Proof. revert s c. induction xs as [|x xs IH]; intros s c; simpl; [done|]. apply IH. Qed.

Lemma ksum_compensated (xs : list float) : ksum xs = compensated 0%float 0%float xs.
Proof. apply foldl_kahan_compensated. Qed.

Lemma fsum_fold_left (xs : list float) : fsum xs = fold_left PrimFloat.add xs 0%float.
Proof.
  unfold fsum. generalize 0%float. induction xs as [|x xs IH]; intros a; simpl; [done|].
  apply IH.
Qed.

Lemma valid_values_present (cs : list cell) : valid_values cs = present cs.
Proof.
  unfold valid_values, present. induction cs as [|c cs IH]; [done|].
  rewrite bind_cons, <- IH. destruct c as [|x|s]; simpl; [done| |done].
  by destruct (PrimFloat.is_nan x).
Qed.

Lemma sum_min_count1_total (cs : list cell) : sum_min_count1 cs = total (present cs).
Proof.
  unfold sum_min_count1, total. rewrite valid_values_present.
  destruct (present cs); [done|]. by rewrite ksum_compensated.
Qed.

Lemma row_sum_min_count1_spec (cs : list cell) :
  row_sum_min_count1 cs =
  match present cs with
  | [] => Num PrimFloat.nan
  | xs => Num (fold_left PrimFloat.add xs 0%float)
  end.
Proof.
  unfold row_sum_min_count1. rewrite valid_values_present.
  destruct (present cs); [done|]. by rewrite fsum_fold_left.
Qed.

(** The total of one reading, and of two. *)
Lemma total_one (x : float) : total [x] = Num (0 + x)%float.
Proof. unfold total, compensated. by rewrite float_sub_zero. Qed.

Lemma total_two (x y : float) :
  PrimFloat.is_nan x = false → total [x; y] = Num (0 + x + y)%float.
Proof.
  intros Hx. unfold total, compensated. rewrite float_sub_zero.
  pose proof (first_compensation x Hx) as Hc. cbv zeta in Hc. rewrite Hc.
  by rewrite float_sub_zero.
Qed.

(** Summing a single value gives the value back, except that a negative
    zero comes back as a positive zero. *)
Lemma total_single (x : float) : ¬ negative_zero x → total (present [Num x]) = Num x.
Proof.
  intros Hx. unfold present. rewrite bind_cons. simpl. rewrite app_nil_r.
  destruct (PrimFloat.is_nan x) eqn:E.
  - by rewrite (nan_is_nan x E).
  - by rewrite total_one, float_zero_add.
Qed.

Lemma total_single_missing (c : cell) : isna c = true → total (present [c]) = Num PrimFloat.nan.
Proof.
  intros Hc. unfold present. rewrite bind_cons. simpl. rewrite app_nil_r.
  destruct c as [|x|s]; [done| |done]. simpl in Hc. by rewrite Hc.
Qed.

(** The readings of a column are the values its grouped sum adds up. *)
Lemma readings_values (vdf : DataFrame) (c : string) (k : cell) :
  valid_values ((fun r => Num (to_numeric (get c r)))
                  <$> filter (fun r => get "id" r = k) (rows vdf))
  = readings vdf c k.
Proof.
  unfold readings, valid_values.
  induction (filter (fun r => get "id" r = k) (rows vdf)) as [|r rs IH]; [done|].
  simpl. destruct (get c r) as [|x|s]; simpl;
    [exact IH | destruct (PrimFloat.is_nan x); [exact IH | f_equal; exact IH] | exact IH].
Qed.

Lemma per_id_total_spec (vdf : DataFrame) (c : string) (k : cell) :
  sum_min_count1 ((fun r => Num (to_numeric (get c r)))
                    <$> filter (fun r => get "id" r = k) (rows vdf))
  = per_id_total vdf c k.
Proof.
  unfold sum_min_count1, per_id_total, total. rewrite readings_values.
  destruct (readings vdf c k); [done|]. by rewrite ksum_compensated.
Qed.

(** ** The classifier *)

(** An id is classified as a logistics truck exactly when it starts with
    [T_]. *)
Lemma classify_vehicle_truck (veh_id : string) :
  classify_vehicle veh_id = "logistics_truck" ↔ startswith veh_id "T_" = true.
Proof.
  unfold classify_vehicle. destruct (startswith veh_id "T_"); [done|].
  destruct (startswith veh_id "bgt_"); [done|].
  by destruct (startswith veh_id "bgc_" || startswith veh_id "F_").
Qed.

(** ** The aggregator *)

(** The count of one group is its size when its ids are all present. *)
Lemma agg_count_all_present (rs : list (gmap string cell)) :
  (∀ r, r ∈ rs → notna (get "id" r) = true) →
  agg_count (get "id" <$> rs) = length rs.
Proof.
  unfold agg_count. induction rs as [|r rs IH]; intros Hall; [done|].
  rewrite fmap_cons, filter_cons_True by (apply Hall; set_solver).
  simpl. rewrite IH; [done|]. intros r' Hr'. apply Hall. set_solver.
Qed.

Lemma n_vehicles_sum {K} spec table (G : list (K * list (gmap string cell))) :
  (∀ kg r, kg ∈ G → r ∈ kg.2 → notna (get "id" r) = true) →
  sum_list (n_vehicles <$> (agg spec table <$> G)) = sum_list_with (fun kg => length kg.2) G.
Proof.
  induction G as [|kg G IH]; intros Hids; [done|].
  rewrite !fmap_cons. simpl. f_equal.
  - apply agg_count_all_present. intros r Hr. apply (Hids kg); [left|done].
  - apply IH. intros kg' r Hin. apply Hids. by right.
Qed.

Lemma sorted_counts (t : list (GroupSummaryRow (cell * cell))) :
  sum_list (n_vehicles <$> sort_values t) = sum_list (n_vehicles <$> t).
Proof. unfold sort_values. by rewrite merge_sort_Permutation. Qed.

Lemma groupby_agg_nonempty {K} `{EqDecision K} (R : relation K) `{!RelDecision R}
    spec table (key : gmap string cell → K) (rs : list (gmap string cell)) :
  rs ≠ [] → agg spec table <$> groupby R key rs ≠ [].
Proof. intros Hrs Hnil%fmap_nil_inv. by apply (groupby_nonempty R key rs). Qed.

Lemma sort_values_nonempty t : t ≠ [] → sort_values t ≠ [].
Proof.
  intros Ht Hnil. apply (f_equal length) in Hnil. unfold sort_values in Hnil.
  rewrite merge_sort_Permutation in Hnil. by apply length_zero_iff_nil in Hnil.
Qed.

(** The vehicle counts of a summary over all the rows of a table whose ids
    are present add up to the number of rows. *)
Lemma summary_counts {K} `{EqDecision K} (R : relation K) `{!RelDecision R}
    spec table (key : gmap string cell → K) (rs : list (gmap string cell)) :
  (∀ r, r ∈ rs → notna (get "id" r) = true) →
  sum_list (n_vehicles <$> (agg spec table <$> groupby R key rs)) = length rs.
Proof.
  intros Hids. rewrite n_vehicles_sum; [apply groupby_sizes|].
  intros [k g] r [-> _]%groupby_member Hr. simpl in Hr.
  apply list_elem_of_filter in Hr as [_ Hr]. by apply Hids.
Qed.

(** ** The tables the run writes *)

Lemma per_vehicle_table_has_columns doc battery df :
  per_vehicle_table doc battery = Ok df → columns df ≠ [].
Proof.
  intros (df0 & df5 & _ & _ & _ & ->)%per_vehicle_table_stages.
  apply with_column_has_columns.
Qed.

Lemma table_ids_present doc battery df r :
  per_vehicle_table doc battery = Ok df → r ∈ rows df → notna (get "id" r) = true.
Proof.
  intros Hdf Hr.
  by destruct (per_vehicle_row _ _ _ _ Hdf Hr) as [(v & -> & _) _ _ _ _ _ _ _ _ _ _ _].
Qed.

Lemma empty_logistics_trucks (df : DataFrame) :
  columns df ≠ [] →
  empty (logistics_trucks df) = bool_decide (truck_rows df = []).
Proof.
  intros Hcols. unfold empty, logistics_trucks, truck_rows. simpl.
  destruct (columns df); [done|]. by destruct (filter _ (rows df)).
Qed.

(** The group of a row of the per-vehicle table is [logistics_truck]
    exactly when its id is the id of a truck. *)
Lemma truck_row_iff doc battery df r :
  per_vehicle_table doc battery = Ok df → r ∈ rows df →
  get "vehicle_group" r = Str "logistics_truck" ↔ is_truck_id (get "id" r) = true.
Proof.
  intros Hdf Hr.
  destruct (per_vehicle_row _ _ _ _ Hdf Hr) as [(v & -> & ->) _ _ _ _ _ _ _ _ _ _ _].
  simpl. rewrite <- classify_vehicle_truck. split; [by intros [= ->] | by intros ->].
Qed.

(** The truck rows of the per-vehicle table are the trip records whose id
    starts with [T_], in document order. *)
Lemma truck_rows_ids doc battery df :
  per_vehicle_table doc battery = Ok df →
  get "id" <$> truck_rows df = truck_ids doc.
Proof.
  intros Hdf. unfold truck_ids, truck_rows.
  rewrite <- (per_vehicle_ids _ _ _ Hdf), filter_bool, filter_fmap_list. f_equal.
  apply filter_ext_in. intros r Hr. by eapply truck_row_iff.
Qed.

(** The tables of a completed run, in terms of its per-vehicle table. *)
Lemma main_stages doc battery out :
  main doc battery = Ok out →
  ∃ df, per_vehicle_table doc battery = Ok df ∧
    vehicles_with_emissions_and_energy out = df ∧
    summary_by_group out =
      agg group_spec (rows df) <$> groupby cell_le (get "vehicle_group") (rows df) ∧
    summary_by_group_powertrain out =
      sort_values (agg gp_pt_spec (rows df) <$>
        groupby pair_le (fun r => (get "vehicle_group" r, get "powertrain" r)) (rows df)) ∧
    (truck_rows df = [] →
     logistics_trucks_detailed out = logistics_trucks df ∧
     summary_trucks_by_hub_powertrain out = None) ∧
    (truck_rows df ≠ [] →
     let trucks := with_column "hub"
       (fun r => match get "id" r with Str s => Str (hub_from_id s) | _ => NA end)
       (logistics_trucks df) in
     logistics_trucks_detailed out = trucks ∧
     summary_trucks_by_hub_powertrain out =
       Some (sort_values (agg hub_spec (rows trucks) <$>
         groupby pair_le (fun r => (get "hub" r, get "powertrain" r)) (rows trucks)))).
Proof.
  unfold main. intros (df & Hdf & H)%bind_ok. cbv zeta in H.
  rewrite (empty_logistics_trucks df (per_vehicle_table_has_columns _ _ _ Hdf)) in H.
  exists df. case_bool_decide as Htr; cbn [negb] in H.
  - rewrite bind_Ok in H. apply mret_ok in H as <-. split_and!; done.
  - apply bind_ok in H as ([th hs] & Hth & H). apply mret_ok in H as <-.
    apply bind_ok in Hth as (th' & Hth & Heq). apply mret_ok in Heq.
    injection Heq as <- <-. apply apply_str_ok in Hth as [-> _].
    split_and!; [done..|]. intros _. cbv zeta.
    cbn [logistics_trucks_detailed summary_trucks_by_hub_powertrain fst snd].
    split; [done|].
    set (t := sort_values _).
    assert (t ≠ []) as Ht.
    { apply sort_values_nonempty, groupby_agg_nonempty. simpl.
      intros Hnil%fmap_nil_inv. done. }
    by destruct t.
Qed.

(** A run whose per-vehicle table is produced writes its tables. *)
Lemma main_total doc battery df :
  per_vehicle_table doc battery = Ok df → ∃ out, main doc battery = Ok out.
Proof.
  intros Hdf. unfold main. rewrite Hdf, bind_Ok. cbv zeta.
  rewrite (empty_logistics_trucks df (per_vehicle_table_has_columns _ _ _ Hdf)).
  case_bool_decide as Htr; cbn [negb].
  - rewrite bind_Ok. eauto.
  - rewrite apply_str_total.
    + rewrite !bind_Ok. eauto.
    + intros r Hr. apply list_elem_of_filter in Hr as [_ Hr].
      destruct (per_vehicle_row _ _ _ _ Hdf Hr) as [(v & Hv & _) _ _ _ _ _ _ _ _ _ _ _]. eauto.
Qed.

(** The trucks table and the summary by hub of a completed run, in terms of
    the trip records. *)
Lemma main_trucks doc battery out :
  main doc battery = Ok out →
  get "id" <$> rows (logistics_trucks_detailed out) = truck_ids doc ∧
  (truck_ids doc = [] → summary_trucks_by_hub_powertrain out = None) ∧
  (truck_ids doc ≠ [] →
   ∃ t, summary_trucks_by_hub_powertrain out = Some t ∧ t ≠ [] ∧
        sum_list (n_vehicles <$> t) = length (truck_ids doc)).
Proof.
  intros (df & Hdf & _ & _ & _ & Hnone & Hsome)%main_stages.
  pose proof (truck_rows_ids _ _ _ Hdf) as Hids.
  destruct (decide (truck_rows df = [])) as [Htr|Htr].
  - destruct (Hnone Htr) as [-> ->].
    change (rows (logistics_trucks df)) with (truck_rows df).
    rewrite Htr in Hids. simpl in Hids. rewrite <- Hids.
    split_and!; [by rewrite Htr | done | done].
  - destruct (Hsome Htr) as [-> ->]. clear Hnone Hsome. cbv zeta.
    assert (truck_ids doc ≠ []) as Hne.
    { rewrite <- Hids. by intros ?%fmap_nil_inv. }
    split_and!; [by rewrite <- Hids, fmap_get_with_column | done |].
    intros _. eexists. split; [reflexivity|]. split.
    + apply sort_values_nonempty, groupby_agg_nonempty. simpl.
      intros Hnil%fmap_nil_inv. done.
    + rewrite sorted_counts, summary_counts.
      * rewrite length_with_column. rewrite <- Hids. by rewrite length_fmap.
      * intros r (r0 & -> & Hr0)%list_elem_of_fmap.
        rewrite get_insert, decide_False by done.
        apply list_elem_of_filter in Hr0 as [_ Hr0]. by eapply table_ids_present.
Qed.

(** ** The battery loader *)

Lemma rows_numeric cols df :
  rows (foldl (fun df c => with_column c (fun r => Num (to_numeric (get c r))) df) df cols)
  = numeric_row cols <$> rows df.
Proof.
  revert df. induction cols as [|c cols IH]; intros df; simpl.
  - by rewrite list_fmap_id.
  - rewrite IH. simpl. by rewrite <- list_fmap_compose.
Qed.

Lemma has_col_numeric c cols df :
  has_col c df = true →
  has_col c (foldl (fun df c => with_column c (fun r => Num (to_numeric (get c r))) df) df cols)
  = true.
Proof.
  revert df. induction cols as [|c' cols IH]; intros df H; simpl; [done|].
  apply IH. by apply has_col_keep.
Qed.

Lemma get_numeric_row c cols r :
  get c (numeric_row cols r) =
  if bool_decide (c ∈ cols) then Num (to_numeric (get c r)) else get c r.
Proof.
  unfold numeric_row. revert r. induction cols as [|c0 cols IH]; intros r; simpl; [done|].
  rewrite IH, get_insert.
  destruct (decide (c0 = c)) as [->|Hne].
  - rewrite (bool_decide_eq_true_2 (c ∈ c :: cols)) by set_solver.
    by case_bool_decide.
  - case_bool_decide as Hin.
    + by rewrite bool_decide_eq_true_2 by set_solver.
    + by rewrite bool_decide_eq_false_2 by set_solver.
Qed.

Lemma energy_col_not_id vdf c : c ∈ energy_cols_of vdf → c ≠ "id".
Proof.
  unfold energy_cols_of. intros Hc%list_elem_of_In%filter_In. destruct Hc as [_ Hc].
  intros ->. by vm_compute in Hc.
Qed.

(** Over duplicate-free keys, the rows built for a key are found back by
    that key alone. *)
Lemma filter_one_key (S : cell → gmap string cell) (ks : list cell) (k : cell) :
  NoDup ks → k ∈ ks → (∀ k', get "id" (S k') = k') →
  filter (fun r => get "id" r = k) (S <$> ks) = [S k].
Proof.
  intros Hnd Hin HS. rewrite filter_fmap_list.
  induction Hnd as [|k0 ks Hnotin Hnd IH]; [by apply elem_of_nil in Hin|].
  rewrite filter_cons, HS. apply elem_of_cons in Hin as [<- | Hin].
  - rewrite decide_True by done. rewrite fmap_cons. f_equal.
    clear IH. induction ks as [|k1 ks IH]; [done|].
    rewrite filter_cons, HS, decide_False by (clear -Hnotin; set_solver).
    apply IH; [clear -Hnotin; set_solver | by inversion Hnd].
  - rewrite decide_False by (intros ->; done). by apply IH.
Qed.

Lemma get_select (c : string) (cols : list string) (m : gmap string cell) :
  c ∈ cols → get c (filter (fun kv : string * cell => kv.1 ∈ cols) m) = get c m.
Proof.
  intros Hc. unfold get. destruct (m !! c) as [v|] eqn:E.
  - by erewrite map_lookup_filter_Some_2.
  - rewrite map_lookup_filter_None_2; [done|]. by left.
Qed.

(** The per-id sums of the aggregated table are the sums over the
    sub-records of the source. *)
Lemma per_id_values vdf cols c k :
  (∀ c', c' ∈ cols → c' ≠ "id") → c ∈ cols → notna k = true →
  get c <$> filter (fun r => get "id" r = k)
              (filter (fun r => notna (get "id" r) = true) (numeric_row cols <$> rows vdf))
  = (fun r => Num (to_numeric (get c r))) <$> filter (fun r => get "id" r = k) (rows vdf).
Proof.
  intros Hnoid Hc Hk.
  assert (Hid : ∀ r, get "id" (numeric_row cols r) = get "id" r).
  { intros r. rewrite get_numeric_row, bool_decide_eq_false_2; [done|].
    intros Hin. by apply (Hnoid "id"). }
  rewrite list_filter_filter.
  rewrite (filter_ext_in _ (fun r => get "id" r = k)) by (intros r _; naive_solver).
  rewrite filter_fmap_list, <- list_fmap_compose.
  rewrite (filter_ext_in _ (fun r => get "id" r = k)) by (intros r _; by rewrite Hid).
  apply list_fmap_ext. intros i r _. simpl.
  by rewrite get_numeric_row, bool_decide_eq_true_2.
Qed.

(** ** The Baseline variant *)

Lemma baseline_basic_metrics_row df r :
  r ∈ rows (Baseline.basic_metrics df) →
  ∃ r0, r0 ∈ rows df ∧
    get "distance_km" r = Num (num (get "routeLength" r0) / 1000)%float ∧
    get "travel_time_min" r = Num (num (get "duration" r0) / 60)%float ∧
    ∀ c, c ∉ ["distance_km"; "travel_time_min"] → get c r = get c r0.
Proof.
  intros Hr. unfold Baseline.basic_metrics in Hr. peel Hr.
  eexists. split; [exact Hr|].
  split_and!; try (intros c Hc); gets; done.
Qed.

Lemma baseline_emissions_and_fuel_row df r :
  r ∈ rows (Baseline.emissions_and_fuel df) →
  ∃ r0, r0 ∈ rows df ∧
    get "CO2_kg" r = Num (num (get "CO2_abs" r0) / 1000000)%float ∧
    get "fuel_kg" r = Num (num (get "fuel_abs" r0) / 1000000)%float ∧
    ∀ c, c ∉ ["CO2_g"; "CO2_kg"; "fuel_g"; "fuel_kg"] → get c r = get c r0.
Proof.
  intros Hr. unfold Baseline.emissions_and_fuel in Hr. peel Hr.
  eexists. split; [exact Hr|].
  split_and!; try (intros c Hc); gets; done.
Qed.

Lemma baseline_service_time_row df r :
  r ∈ rows (Baseline.service_time df) →
  ∃ r0, r0 ∈ rows df ∧
    get "service_time_s" r = Num (service_time_of r0) ∧
    get "driving_time_min" r =
      Num ((num (get "duration" r0) - service_time_of r0) / 60)%float ∧
    ∀ c, c ∉ ["service_time_s"; "driving_time_min"] → get c r = get c r0.
Proof.
  intros Hr. unfold Baseline.service_time in Hr. peel Hr.
  eexists. split; [exact Hr|]. unfold service_time_of.
  split_and!; try (intros c Hc); gets; try done.
  - by case_bool_decide.
  - by case_bool_decide.
Qed.

Lemma baseline_per_vehicle_row doc df r :
  Baseline.per_vehicle_table doc = Ok df → r ∈ rows df → Baseline.derived_row r.
Proof.
  unfold Baseline.per_vehicle_table.
  intros (df0 & _ & H)%bind_ok. apply bind_ok in H as (_ & _ & H).
  apply bind_ok in H as (df1 & Happ & H).
  do 4 apply bind_ok in H as (_ & _ & H).
  injection H as <-. intros Hr.
  apply apply_str_ok in Happ as [-> Hstr].
  apply baseline_service_time_row in Hr as (r3 & Hr & Hst & Hdt & F4).
  apply per_km_metrics_row in Hr as (r2 & Hr & Hck & Hfk & F3).
  apply baseline_emissions_and_fuel_row in Hr as (r1 & Hr & Hckg & Hfkg & F2).
  apply baseline_basic_metrics_row in Hr as (r0 & Hr & Hdist & Htt & F1).
  apply with_column_elem in Hr as (r00 & Hr & ->).
  destruct (Hstr _ Hr) as [veh_id Hveh].
  split.
  - exists veh_id. rewrite !F4, !F3, !F2, !F1 by notin. gets. by rewrite Hveh.
  - rewrite !F4, !F3, !F2 by notin. rewrite Hdist. by rewrite !F1 by notin.
  - rewrite !F4, !F3, !F2 by notin. rewrite Htt. by rewrite !F1 by notin.
  - rewrite !F4, !F3 by notin. rewrite Hckg. by rewrite !F2 by notin.
  - rewrite !F4, !F3 by notin. rewrite Hfkg. by rewrite !F2 by notin.
  - rewrite !F4 by notin. rewrite Hck. by rewrite !F3 by notin.
  - rewrite !F4 by notin. rewrite Hfk. by rewrite !F3 by notin.
  - unfold service_time_of. rewrite (F4 "vehicle_group") by notin. by rewrite Hst.
  - rewrite Hdt, Hst. simpl. by rewrite F4 by notin.
Qed.

Lemma numeric_column_with_column c c' f df :
  c ≠ c' →
  Baseline.numeric_column c (with_column c' f df) = Baseline.numeric_column c df.
Proof.
  intros Hne. unfold Baseline.numeric_column.
  rewrite has_col_with_column, (bool_decide_eq_false_2 (c = c')), orb_false_r by done.
  simpl. rewrite existsb_fmap.
  destruct (has_col c df); simpl; [|done].
  assert (existsb (fun r => match get c (<[c' := f r]> r) with Str _ => true | _ => false end)
            (rows df)
          = existsb (fun r => match get c r with Str _ => true | _ => false end) (rows df))
    as ->; [|done].
  induction (rows df) as [|r rs IH]; simpl; [done|].
  by rewrite IH, get_insert, decide_False.
Qed.

Lemma baseline_per_vehicle_table_total doc :
  Baseline.well_formed doc = true → ∃ df, Baseline.per_vehicle_table doc = Ok df.
Proof.
  unfold Baseline.well_formed, Baseline.per_vehicle_table.
  destruct (Baseline.load_tripinfo_with_emissions doc) as [df0|]; [|done].
  rewrite !andb_true_iff. intros [[[[[Hid Hids] Hrl] Hdu] Hco] Hfu]. simpl.
  unfold column. rewrite Hid. simpl.
  pose proof (proj1 (text_ids_spec df0) Hids) as Hids'.
  rewrite (apply_str_total _ _ _ _ Hids'). simpl.
  rewrite !numeric_column_with_column by done.
  destruct (Baseline.numeric_column "routeLength" df0) as [[]|]; [|done].
  destruct (Baseline.numeric_column "duration" df0) as [[]|]; [|done].
  simpl. unfold Baseline.basic_metrics.
  rewrite !numeric_column_with_column by done.
  destruct (Baseline.numeric_column "CO2_abs" df0) as [[]|]; [|done].
  destruct (Baseline.numeric_column "fuel_abs" df0) as [[]|]; [|done].
  simpl. eauto.
Qed.

Lemma baseline_groupby_all (df : DataFrame) by_ :
  (∀ r, r ∈ rows df → notna (get by_ r) = true) →
  Baseline.groupby_dropna by_ (rows df) = groupby cell_le (get by_) (rows df).
Proof. intros H. unfold Baseline.groupby_dropna. by rewrite filter_all. Qed.


(** The Baseline per-vehicle table, as the sections applied one after the
    other to the loaded table. *)
Lemma baseline_per_vehicle_table_stages doc df :
  Baseline.per_vehicle_table doc = Ok df →
  ∃ df0, Baseline.load_tripinfo_with_emissions doc = Ok df0 ∧
    has_col "id" df0 = true ∧
    (∀ r, r ∈ rows df0 → ∃ s, get "id" r = Str s) ∧
    df = Baseline.service_time (per_km_metrics (Baseline.emissions_and_fuel
           (Baseline.basic_metrics
              (with_column "vehicle_group"
                 (fun r => match get "id" r with
                           | Str s => Str (classify_vehicle s)
                           | _ => NA
                           end) df0)))).
Proof.
  unfold Baseline.per_vehicle_table.
  intros (df0 & Hload & H)%bind_ok. apply bind_ok in H as ([] & Hcol & H).
  apply bind_ok in H as (df1 & Happ & H).
  apply bind_ok in H as (? & _ & H). apply bind_ok in H as (? & _ & H).
  cbv zeta in H.
  apply bind_ok in H as (? & _ & H). apply bind_ok in H as (? & _ & H).
  apply mret_ok in H as <-. apply apply_str_ok in Happ as [-> Hstr].
  exists df0. split_and!; [done | | done | done].
  unfold column in Hcol. by destruct (has_col "id" df0).
Qed.

Lemma baseline_per_vehicle_length doc df :
  Baseline.per_vehicle_table doc = Ok df → length (rows df) = length (tripinfo doc).
Proof.
  intros (df0 & Hload & _ & _ & ->)%baseline_per_vehicle_table_stages.
  unfold Baseline.service_time, per_km_metrics, Baseline.emissions_and_fuel,
    Baseline.basic_metrics, assign_where.
  rewrite !length_with_column. by apply baseline_load_length.
Qed.

Lemma baseline_per_vehicle_table_has_columns doc df :
  Baseline.per_vehicle_table doc = Ok df → columns df ≠ [].
Proof.
  intros (df0 & _ & _ & _ & ->)%baseline_per_vehicle_table_stages.
  apply with_column_has_columns.
Qed.

Lemma baseline_table_ids_present doc df r :
  Baseline.per_vehicle_table doc = Ok df → r ∈ rows df → notna (get "id" r) = true.
Proof.
  intros Hdf Hr.
  by destruct (baseline_per_vehicle_row _ _ _ Hdf Hr) as [(v & -> & _) _ _ _ _ _ _ _ _].
Qed.

(** What the Baseline [main] writes, in terms of its per-vehicle table. *)
Lemma baseline_main_outputs doc df :
  Baseline.per_vehicle_table doc = Ok df →
  ∃ out,
    Baseline.main doc = Ok out ∧
    Baseline.vehicles_with_emissions out = df ∧
    Baseline.summary_by_group out =
      agg Baseline.group_spec (rows df) <$> groupby cell_le (get "vehicle_group") (rows df).
Proof.
  intros Hdf. unfold Baseline.main. rewrite Hdf, bind_Ok. cbv zeta.
  assert (Hids : ∀ r, r ∈ rows df → ∃ v, get "id" r = Str v).
  { intros r Hr. destruct (baseline_per_vehicle_row _ _ _ Hdf Hr) as [(v & Hv & _) _ _ _ _ _ _ _ _].
    eauto. }
  rewrite baseline_groupby_all.
  2:{ intros r Hr.
      destruct (baseline_per_vehicle_row _ _ _ Hdf Hr) as [(v & _ & ->) _ _ _ _ _ _ _ _]. done. }
  destruct (empty (logistics_trucks df)); cbn [negb].
  - rewrite bind_Ok. eexists. split_and!; [reflexivity | done | done].
  - rewrite apply_str_total.
    + rewrite !bind_Ok. eexists. split_and!; [reflexivity | done | done].
    + intros r Hr. apply list_elem_of_filter in Hr as [_ Hr]. eauto.
Qed.

(** A reading is a number. *)
Lemma readings_not_nan (vdf : DataFrame) (c : string) (k : cell) (x : float) :
  x ∈ readings vdf c k → PrimFloat.is_nan x = false.
Proof.
  unfold readings. intros (r & _ & Hx)%list_elem_of_omap.
  destruct (get c r) as [|y|s]; [done| |done].
  destruct (PrimFloat.is_nan y) eqn:E; [done|]. by injection Hx as <-.
Qed.

(** * The claims of the specification *)

(** ** C1: the positional join *)

(** C1, amended.  Lengths that differ do not make the join fail.  When both
    record collections can be read, the trip records carry an [id] column
    and no emissions attribute has the name of a column of the trip table
    ([routeLength], [duration] and [vType] included), the 50-50 loader
    returns a table with exactly one row per trip record, in document order,
    each with the id of the trip record at its position; its emissions
    columns are those of the emissions record at the same position, and are
    missing when there is no such record.  A run on such a source that is
    otherwise accepted (text ids, battery data that can be merged) completes
    and writes its tables, with one row per trip record.  The Baseline
    loader returns the same rows, ids and emissions columns when the two
    collections share no column name, and raises a [ValueError] when they
    share one. *)
Theorem load_tripinfo_keeps_every_trip_row (doc : document) (trip em : DataFrame) :
  read_xml (tripinfo doc) = Ok trip →
  has_col "id" trip = true →
  read_xml (emissions doc) = Ok em →
  ((∀ c, c ∈ columns em →
      has_col c trip = false ∧ c ∉ ["routeLength"; "duration"; "vType"]) →
   ∃ df, load_tripinfo_with_emissions doc = Ok df ∧
         get "id" <$> rows df = trip_ids doc ∧
         (∀ i r, rows df !! i = Some r →
            ∀ c, c ∈ columns em → get c r = emission_at doc i c) ∧
         ∀ battery, well_formed doc battery = true →
           ∃ out, main doc battery = Ok out ∧
                  get "id" <$> rows (vehicles_with_emissions_and_energy out) = trip_ids doc) ∧
  ((∀ c, c ∈ columns em → has_col c trip = false) →
   ∃ df, Baseline.load_tripinfo_with_emissions doc = Ok df ∧
         get "id" <$> rows df = trip_ids doc ∧
         ∀ i r, rows df !! i = Some r →
           ∀ c, c ∈ columns em → get c r = emission_at doc i c) ∧
  ((∃ c, c ∈ columns em ∧ has_col c trip = true) →
   Baseline.load_tripinfo_with_emissions doc =
     Raise (ValueError "columns overlap but no suffix specified")).
Proof.
  intros Ht Hid Hem. split_and!.
  - intros Hnames.
    assert (Hdis : ∀ c, c ∈ columns em → has_col c (normalized_trip trip) = false).
    { intros c Hc. destruct (Hnames c Hc) as [Hno Hnot].
      rewrite has_col_normalized_trip, Hno. by apply bool_decide_eq_false. }
    pose proof (load_is_ok _ _ _ Ht Hid Hem Hdis) as Hload.
    eexists. split; [exact Hload|]. split_and!.
    + by apply load_trip_columns.
    + by apply (load_emission_columns _ _ _ _ Ht Hem Hload).
    + intros battery [df Hdf]%per_vehicle_table_total.
      destruct (main_total _ _ _ Hdf) as [out Hout]. exists out. split; [done|].
      destruct (main_stages _ _ _ Hout) as (df' & Hdf' & -> & _).
      by eapply per_vehicle_ids.
  - intros Hdis.
    assert (Hload : Baseline.load_tripinfo_with_emissions doc = Ok (joined "" trip em)).
    { unfold Baseline.load_tripinfo_with_emissions.
      by rewrite Ht, bind_Ok, Hem, bind_Ok, (join_disjoint _ _ _ Hdis). }
    eexists. split; [exact Hload|]. split.
    + apply baseline_load_ids; [done|]. by rewrite <- (has_col_read_xml "id" _ _ Ht).
    + by apply (baseline_load_emission_columns _ _ _ Hem Hload).
  - intros Hshared. unfold Baseline.load_tripinfo_with_emissions.
    rewrite Ht, bind_Ok, Hem, bind_Ok. by apply join_overlap.
Qed.

(** The hypotheses hold on the sample document of two trip records and one
    emissions record: both loaders keep the two trip records, and the run
    without battery data writes its tables. *)
Lemma load_tripinfo_keeps_every_trip_row_witness :
  ∃ trip em,
    (read_xml (tripinfo doc_short_emissions) = Ok trip ∧
     has_col "id" trip = true ∧
     read_xml (emissions doc_short_emissions) = Ok em ∧
     well_formed doc_short_emissions None = true) ∧
    (∃ df, load_tripinfo_with_emissions doc_short_emissions = Ok df ∧
           get "id" <$> rows df = trip_ids doc_short_emissions) ∧
    (∃ out, main doc_short_emissions None = Ok out ∧
            get "id" <$> rows (vehicles_with_emissions_and_energy out)
              = trip_ids doc_short_emissions) ∧
    (∃ df, Baseline.load_tripinfo_with_emissions doc_short_emissions = Ok df ∧
           get "id" <$> rows df = trip_ids doc_short_emissions).
Proof.
  pose (trip := {| columns := ["id"; "duration"];
                   rows := row_of <$> tripinfo doc_short_emissions |}).
  pose (em := {| columns := ["CO2_abs"; "fuel_abs"];
                 rows := row_of <$> emissions doc_short_emissions |}).
  assert (Ht : read_xml (tripinfo doc_short_emissions) = Ok trip)
    by (vm_compute; reflexivity).
  assert (Hid : has_col "id" trip = true) by (vm_compute; reflexivity).
  assert (Hem : read_xml (emissions doc_short_emissions) = Ok em)
    by (vm_compute; reflexivity).
  assert (Hwf : well_formed doc_short_emissions None = true)
    by (vm_compute; reflexivity).
  exists trip, em. split; [by split_and!|].
  destruct (load_tripinfo_keeps_every_trip_row doc_short_emissions trip em Ht Hid Hem)
    as (H50 & HB & _).
  destruct H50 as (df & Hdf & Hids & _ & Hrun).
  { intros c Hc.
    apply elem_of_cons in Hc as [-> | Hc]; [split; [vm_compute; reflexivity | notin]|].
    apply elem_of_cons in Hc as [-> | Hc]; [split; [vm_compute; reflexivity | notin]|].
    destruct (proj1 (elem_of_nil c) Hc). }
  destruct (Hrun None Hwf) as (out & Hout & Hout_ids).
  destruct HB as (df' & Hdf' & Hids' & _).
  { intros c Hc.
    apply elem_of_cons in Hc as [-> | Hc]; [vm_compute; reflexivity|].
    apply elem_of_cons in Hc as [-> | Hc]; [vm_compute; reflexivity|].
    destruct (proj1 (elem_of_nil c) Hc). }
  split_and!; [exists df | exists out | exists df']; split; assumption.
Defined.

(** The claim of C1 fails: with two trip records and one emissions record
    the join succeeds in both loader variants, the second vehicle gets
    missing emissions, and the run goes on to write its tables. *)
Lemma short_emissions_are_tolerated :
  length (tripinfo doc_short_emissions) = 2 ∧
  length (emissions doc_short_emissions) = 1 ∧
  column_of "id" (load_tripinfo_with_emissions doc_short_emissions)
    = Some [Str "T_SPAR_1"; Str "bgc_7"] ∧
  column_of "CO2_abs" (load_tripinfo_with_emissions doc_short_emissions)
    = Some [Num 2500000%float; NA] ∧
  column_of "CO2_abs" (Baseline.load_tripinfo_with_emissions doc_short_emissions)
    = Some [Num 2500000%float; NA] ∧
  match main doc_short_emissions None with
  | Ok out => Some ((fun s => (group s, n_vehicles s)) <$> summary_by_group out)
  | Raise _ => None
  end = Some [(Str "background_car", 1); (Str "logistics_truck", 1)].
Proof. vm_compute. split_and!; reflexivity. Qed.

(** ** C2: powertrain *)

(** The claim of C2 fails on the 50-50 variant: a type name that contains
    [electric] but not [ev] is not an EV there. *)
Lemma powertrain_electric_is_other :
  contains "electric" (lower "Electric_van") = true ∧
  cell_in (Str "Electric_van") EV_TYPES = false ∧
  cell_in (Str "Electric_van") DIESEL_TYPES = false ∧
  powertrain_from_vtype (Str "Electric_van") = "Other" ∧
  powertrain_from_vtype (Str "Electric_van") ≠ "EV".
Proof. vm_compute. split_and!; done. Qed.

(** C2, amended.  Both variants of [powertrain_from_vtype] return [unknown]
    on a missing type, [EV] on a member of the EV-type set, [Diesel] on a
    member of the Diesel-type set.  On any other type name the 50-50 variant
    returns [EV] exactly when the lower-cased name contains [ev], and the
    Full-electrical-fleet variant exactly when it contains [ev] or
    [electric]; both return [Other] in the remaining cases, which are the
    names without such a substring and the types that are numbers.  The four
    sample values of the specification hold in both variants. *)
Theorem powertrain_from_vtype_cases (vtype : cell) :
  (isna vtype = true →
     powertrain_from_vtype vtype = "unknown" ∧
     FullElectricalFleet.powertrain_from_vtype vtype = "unknown") ∧
  (∀ s, vtype = Str s → s ∈ EV_TYPES →
     powertrain_from_vtype vtype = "EV" ∧
     FullElectricalFleet.powertrain_from_vtype vtype = "EV") ∧
  (∀ s, vtype = Str s → s ∈ DIESEL_TYPES →
     powertrain_from_vtype vtype = "Diesel" ∧
     FullElectricalFleet.powertrain_from_vtype vtype = "Diesel") ∧
  (∀ s, vtype = Str s → s ∉ EV_TYPES → s ∉ DIESEL_TYPES →
     powertrain_from_vtype vtype =
       (if contains "ev" (lower s) then "EV" else "Other") ∧
     FullElectricalFleet.powertrain_from_vtype vtype =
       (if contains "ev" (lower s) || contains "electric" (lower s)
        then "EV" else "Other")) ∧
  (∀ x, vtype = Num x → PrimFloat.is_nan x = false →
     powertrain_from_vtype vtype = "Other" ∧
     FullElectricalFleet.powertrain_from_vtype vtype = "Other") ∧
  (powertrain_from_vtype (Str "truck_ev") = "EV" ∧
   powertrain_from_vtype (Str "truck_euro6") = "Diesel" ∧
   powertrain_from_vtype (Str "hybrid_EV_x") = "EV" ∧
   powertrain_from_vtype NA = "unknown") ∧
  (FullElectricalFleet.powertrain_from_vtype (Str "truck_ev") = "EV" ∧
   FullElectricalFleet.powertrain_from_vtype (Str "truck_euro6") = "Diesel" ∧
   FullElectricalFleet.powertrain_from_vtype (Str "hybrid_EV_x") = "EV" ∧
   FullElectricalFleet.powertrain_from_vtype NA = "unknown").
Proof.
  split_and!.
  - intros Hna. unfold powertrain_from_vtype, FullElectricalFleet.powertrain_from_vtype.
    by rewrite Hna.
  - intros s -> Hs. unfold powertrain_from_vtype, FullElectricalFleet.powertrain_from_vtype.
    simpl. by rewrite bool_decide_eq_true_2.
  - intros s -> Hs. unfold powertrain_from_vtype, FullElectricalFleet.powertrain_from_vtype.
    simpl. rewrite (bool_decide_eq_true_2 (s ∈ DIESEL_TYPES)) by done.
    rewrite bool_decide_eq_false_2; [done|].
    unfold EV_TYPES, DIESEL_TYPES in *. set_solver.
  - intros s -> Hev Hdi. unfold powertrain_from_vtype, FullElectricalFleet.powertrain_from_vtype.
    simpl. by rewrite !bool_decide_eq_false_2.
  - intros x -> Hx. unfold powertrain_from_vtype, FullElectricalFleet.powertrain_from_vtype.
    simpl. by rewrite Hx.
  - vm_compute. done.
  - vm_compute. done.
  - vm_compute. done.
  - vm_compute. done.
  - vm_compute. done.
  - vm_compute. done.
  - vm_compute. done.
  - vm_compute. done.
Qed.

(** ** C3: hub *)

(** C3. [hub_from_id] evaluates the five prefix rules in order and returns
    the hub of the first rule that matches: [T_ROS2_7] is a Roswell2 truck,
    [T_ROS34_2] a Roswell3&4 truck, and an id that starts with none of the
    five prefixes is mapped to [other]. *)
Theorem hub_from_id_first_match (veh_id : string) :
  hub_from_id "T_ROS2_7" = "Roswell2" ∧
  hub_from_id "T_ROS34_2" = "Roswell3&4" ∧
  hub_from_id veh_id = first_match hub_rules veh_id ∧
  ((∀ p, p ∈ hub_rules.*1 → startswith veh_id p = false) →
   hub_from_id veh_id = "other").
Proof.
  split_and!; [done | done | done |].
  intros Hnone. unfold hub_from_id.
  rewrite !Hnone; [done | | | | |]; simpl; set_solver.
Qed.

(** ** C4: battery totals *)

(** C4. When the battery source is read, has an identifier column (after
    the aliases are harmonized) and at least one recognized energy column,
    the loader returns a table of the columns [id] and [energy_Wh] with
    exactly one row per vehicle id of the source (missing ids apart).  Every
    discovered energy column is first totalled over the sub-records of an
    id: the total of a column is missing when the id has no reading in it,
    the reading itself when there is one, the sum of the two when there are
    two, and the compensated sum of the readings in general.  The
    authoritative total is then taken from [energyConsumed], else
    [totalEnergyConsumed], else [energy], else the sum of the totals of all
    discovered columns.  The [energy_Wh] of an id is that authoritative
    total (re-aggregated as the single value of its id, which changes
    nothing but the sign of a negative zero). *)
Theorem battery_totals_by_priority (vehicles : list node) (vdf0 : DataFrame) :
  read_xml vehicles = Ok vdf0 →
  has_col "id" (harmonize_id vdf0) = true →
  energy_cols_of (harmonize_id vdf0) ≠ [] →
  ∃ out, load_battery_totals (Some vehicles) = Some out ∧
    columns out = ["id"; "energy_Wh"] ∧
    NoDup (get "id" <$> rows out) ∧
    (∀ k, k ∈ (get "id" <$> rows out) ↔
          notna k = true ∧ ∃ r, r ∈ rows (harmonize_id vdf0) ∧ get "id" r = k) ∧
    (∀ r, r ∈ rows out →
       get "energy_Wh" r =
         total (present [authoritative_total (harmonize_id vdf0)
                           (energy_cols_of (harmonize_id vdf0)) (get "id" r)]) ∧
       (∀ x, authoritative_total (harmonize_id vdf0)
               (energy_cols_of (harmonize_id vdf0)) (get "id" r) = Num x →
             ¬ negative_zero x → get "energy_Wh" r = Num x) ∧
       (isna (authoritative_total (harmonize_id vdf0)
                (energy_cols_of (harmonize_id vdf0)) (get "id" r)) = true →
        isna (get "energy_Wh" r) = true)) ∧
    (∀ c k, readings (harmonize_id vdf0) c k = [] →
       isna (per_id_total (harmonize_id vdf0) c k) = true) ∧
    (∀ c k x, readings (harmonize_id vdf0) c k = [x] →
       per_id_total (harmonize_id vdf0) c k = Num (0 + x)%float) ∧
    (∀ c k x y, readings (harmonize_id vdf0) c k = [x; y] →
       per_id_total (harmonize_id vdf0) c k = Num (0 + x + y)%float).
Proof.
  intros Hread Hid Hcols.
  set (vdf := harmonize_id vdf0) in *. set (cols := energy_cols_of vdf) in *.
  unfold load_battery_totals, shape_A. rewrite Hread. simpl.
  rewrite (read_xml_not_empty _ _ Hread). fold vdf. fold cols.
  rewrite has_col_numeric by done.
  rewrite (bool_decide_eq_false_2 (cols = [])) by done. simpl.
  eexists. split; [reflexivity|]. split; [done|].
  assert (Hnoid : ∀ c, c ∈ cols → c ≠ "id") by apply energy_col_not_id.
  set (vdfn := foldl _ vdf cols).
  set (agg := groupby_sum "id" cols vdfn).
  set (rsn := filter (fun r => notna (get "id" r) = true) (rows vdfn)).
  set (keys := group_keys cell_le (get "id") rsn).
  set (S := fun k => filter (fun kv : string * cell => kv.1 ∈ ["id"; "energy_Wh"])
                       (<["energy_Wh" := select_energy cols agg (sum_row "id" cols rsn k)]>
                          (sum_row "id" cols rsn k))).
  (* the table that is grouped again *)
  assert (Hsel : rows (concat_frames [select ["id"; "energy_Wh"]
                   (with_column "energy_Wh" (select_energy cols agg) agg)]) = S <$> keys).
  { unfold concat_frames, select. simpl. rewrite app_nil_r.
    pose proof (groupby_sum_rows "id" cols vdfn) as Hagg.
    unfold groupby_sum in Hagg. simpl in Hagg. rewrite Hagg.
    by rewrite <- !list_fmap_compose. }
  assert (HSid : ∀ k, get "id" (S k) = k).
  { intros k. unfold S. rewrite get_select by set_solver.
    rewrite get_insert, decide_False by done. apply get_sum_row_key. }
  assert (HSen : ∀ k, get "energy_Wh" (S k) = select_energy cols agg (sum_row "id" cols rsn k)).
  { intros k. unfold S. rewrite get_select by set_solver.
    by rewrite get_insert, decide_True. }
  assert (Hkeys : ∀ k, k ∈ keys ↔ notna k = true ∧ ∃ r, r ∈ rows vdf ∧ get "id" r = k).
  { intros k. unfold keys. rewrite elem_of_group_keys. unfold rsn, vdfn.
    rewrite rows_numeric. split.
    - intros (r & [Hna (r0 & -> & Hr0)%list_elem_of_fmap]%list_elem_of_filter & <-).
      split; [done|]. exists r0. split; [done|].
      rewrite get_numeric_row, bool_decide_eq_false_2; [done|].
      intros Hin. by apply (Hnoid "id").
    - intros (Hna & r0 & Hr0 & <-).
      assert (get "id" (numeric_row cols r0) = get "id" r0) as Heq.
      { rewrite get_numeric_row, bool_decide_eq_false_2; [done|].
        intros Hin. by apply (Hnoid "id"). }
      exists (numeric_row cols r0). split; [|done].
      apply list_elem_of_filter. split; [by rewrite Heq|].
      by apply list_elem_of_fmap_2. }
  assert (Hrs' : filter (fun r => notna (get "id" r) = true) (S <$> keys) = S <$> keys).
  { apply filter_all. intros r (k & -> & Hk)%list_elem_of_fmap.
    rewrite HSid. by apply Hkeys. }
  assert (Hout : ∀ X, rows X = S <$> keys →
            rows (groupby_sum "id" ["energy_Wh"] X)
            = sum_row "id" ["energy_Wh"] (S <$> keys)
                <$> group_keys cell_le (get "id") (S <$> keys)).
  { intros X HX. by rewrite groupby_sum_rows, HX, Hrs'. }
  rewrite (Hout _ Hsel). clear Hout Hsel.
  set (keys' := group_keys cell_le (get "id") (S <$> keys)).
  assert (Hkeys' : ∀ k, k ∈ keys' ↔ k ∈ keys).
  { intros k. unfold keys'. rewrite elem_of_group_keys. split.
    - intros (r & (k' & -> & Hk')%list_elem_of_fmap & <-). by rewrite HSid.
    - intros Hk. exists (S k). split; [by apply list_elem_of_fmap_2|done]. }
  assert (Hids : get "id" <$> (sum_row "id" ["energy_Wh"] (S <$> keys) <$> keys') = keys').
  { rewrite <- list_fmap_compose. rewrite <- (list_fmap_id keys') at 2.
    apply list_fmap_ext. intros i k _. simpl. apply get_sum_row_key. }
  rewrite Hids. split_and!.
  - apply group_keys_NoDup.
  - intros k. by rewrite Hkeys', Hkeys.
  - intros r (k & -> & Hk)%list_elem_of_fmap.
    rewrite get_sum_row_key.
    assert (Hen : get "energy_Wh" (sum_row "id" ["energy_Wh"] (S <$> keys) k)
                  = total (present [authoritative_total vdf cols k])).
    { rewrite get_sum_row_col by (done || set_solver).
      rewrite filter_one_key; [|apply group_keys_NoDup|by apply Hkeys'|done].
      rewrite sum_min_count1_total. simpl. rewrite HSen.
      apply Hkeys', Hkeys in Hk as [Hna _].
      assert (Hcol : ∀ c, c ∈ cols →
                get c (sum_row "id" cols rsn k) = per_id_total vdf c k).
      { intros c Hc. rewrite get_sum_row_col by auto.
        unfold rsn, vdfn. rewrite rows_numeric.
        rewrite (per_id_values vdf cols c k) by done.
        apply per_id_total_spec. }
      assert (Hhas : ∀ c, c ≠ "id" → has_col c agg = bool_decide (c ∈ cols)).
      { intros c Hc. unfold has_col, agg, groupby_sum. simpl.
        apply bool_decide_ext. set_solver. }
      assert (Hse : select_energy cols agg (sum_row "id" cols rsn k)
                    = authoritative_total vdf cols k).
      { unfold select_energy, authoritative_total.
        rewrite !Hhas by done.
        repeat case_bool_decide; try (by apply Hcol).
        rewrite row_sum_min_count1_spec. unfold all_columns_total.
        assert (Hsame : (fun c => get c (sum_row "id" cols rsn k)) <$> cols
                        = (fun c => per_id_total vdf c k) <$> cols).
        { apply list_fmap_ext. intros i c Hc. apply Hcol.
          by eapply list_elem_of_lookup_2. }
        by rewrite Hsame. }
      by rewrite Hse. }
    split_and!; [done | |].
    + intros x Hx Hnz. rewrite Hen, Hx. by apply total_single.
    + intros Hna. rewrite Hen. by rewrite total_single_missing.
  - intros c k Hr. unfold per_id_total. by rewrite Hr.
  - intros c k x Hr. unfold per_id_total. rewrite Hr. apply total_one.
  - intros c k x y Hr. unfold per_id_total. rewrite Hr. apply total_two.
    apply (readings_not_nan vdf c k). rewrite Hr. apply elem_of_cons. by left.
Qed.

(** The sample battery records have an [id] column and one recognized
    energy column. *)
Lemma battery_totals_by_priority_witness :
  ∃ vdf0,
    (read_xml battery_fleet = Ok vdf0 ∧
     has_col "id" (harmonize_id vdf0) = true ∧
     energy_cols_of (harmonize_id vdf0) ≠ []) ∧
    ∃ out, load_battery_totals (Some battery_fleet) = Some out ∧
      columns out = ["id"; "energy_Wh"] ∧
      NoDup (get "id" <$> rows out) ∧
      ∀ r, r ∈ rows out →
        get "energy_Wh" r =
          total (present [authoritative_total (harmonize_id vdf0)
                            (energy_cols_of (harmonize_id vdf0)) (get "id" r)]).
Proof.
  pose (vdf0 := {| columns := ["id"; "energyConsumed"]; rows := row_of <$> battery_fleet |}).
  assert (Hread : read_xml battery_fleet = Ok vdf0) by (vm_compute; reflexivity).
  assert (Hid : has_col "id" (harmonize_id vdf0) = true) by (vm_compute; reflexivity).
  assert (Hcols : energy_cols_of (harmonize_id vdf0) ≠ []) by (vm_compute; discriminate).
  exists vdf0. split; [by split_and!|].
  destruct (battery_totals_by_priority battery_fleet vdf0 Hread Hid Hcols)
    as (out & Hout & Hc & Hnd & _ & Hen & _).
  exists out. split_and!; [assumption | assumption | assumption |].
  intros r Hr. exact (proj1 (Hen r Hr)).
Defined.

(** The totals of the sample battery records, and of records that name
    their columns otherwise: the identifier alias is harmonized; the energy
    columns are discovered whatever their case, but only the exact names
    [energyConsumed], [totalEnergyConsumed] and [energy] are given priority,
    so that here the sum of all discovered columns is taken. *)
Example battery_totals_samples :
  (fun out => (fun r => (get "id" r, get "energy_Wh" r)) <$> rows out)
    <$> load_battery_totals (Some battery_fleet)
  = Some [(Str "T_ROS34_2", Num 50000%float); (Str "T_SPAR_1", Num 50000%float)] ∧
  (fun out => (fun r => (get "id" r, get "energy_Wh" r)) <$> rows out)
    <$> load_battery_totals (Some
          [ [("Vehicle", Str "T_2"); ("EnergyConsumed", Num 10%float);
             ("chargingEnergy", Num 1%float)];
            [("Vehicle", Str "T_1"); ("EnergyConsumed", Num 5%float);
             ("chargingEnergy", Num 1%float)];
            [("Vehicle", Str "T_2"); ("EnergyConsumed", Num 2.5%float);
             ("chargingEnergy", NA)] ])
  = Some [(Str "T_1", Num 6%float); (Str "T_2", Num 13.5%float)].
Proof. vm_compute. split; reflexivity. Qed.

(** Ten readings of a tenth of a watt-hour: the compensated sum of the
    loader is exactly one, where plain accumulation gives less. *)
Example battery_totals_are_compensated :
  (fun out => get "energy_Wh" <$> rows out)
    <$> load_battery_totals (Some (replicate 10 [("id", Str "T_1"); ("energy", Num 0.1%float)]))
  = Some [Num 1%float] ∧
  fsum (replicate 10 0.1%float) = 0.99999999999999989%float.
Proof. vm_compute. split; reflexivity. Qed.

(** ** C5: per-distance ratios *)

(** C5. A run on a source it accepts produces the per-vehicle table, with
    one row per trip record, and in every row whose [distance_km] is exactly
    zero both per-distance ratios are missing: the division is never carried
    out on a zero distance, so there is no division error, no infinite value
    and no zero in their place.  This holds in the 50-50 and in the Baseline
    variant. *)
Theorem per_km_ratio_missing_at_zero_distance (doc : document) (battery : option (list node)) :
  (well_formed doc battery = true →
   ∃ df, per_vehicle_table doc battery = Ok df ∧
     get "id" <$> rows df = trip_ids doc ∧
     ∀ r x, r ∈ rows df →
       get "distance_km" r = Num x → PrimFloat.eqb x 0%float = true →
       get "CO2_kg_per_km" r = NA ∧ get "fuel_kg_per_km" r = NA) ∧
  (Baseline.well_formed doc = true →
   ∃ df, Baseline.per_vehicle_table doc = Ok df ∧
     length (rows df) = length (tripinfo doc) ∧
     ∀ r x, r ∈ rows df →
       get "distance_km" r = Num x → PrimFloat.eqb x 0%float = true →
       get "CO2_kg_per_km" r = NA ∧ get "fuel_kg_per_km" r = NA).
Proof.
  split; intros Hwf.
  - destruct (per_vehicle_table_total doc battery Hwf) as [df Hdf].
    exists df. split; [done|]. split; [by eapply per_vehicle_ids|].
    intros r x Hr Hdist Hzero.
    destruct (per_vehicle_row _ _ _ _ Hdf Hr) as [_ _ _ Hc Hf Hck Hfk _ _ _ _ _].
    rewrite Hck, Hfk, Hc, Hf, Hdist. simpl. by rewrite Hzero.
  - destruct (baseline_per_vehicle_table_total doc Hwf) as [df Hdf].
    exists df. split; [done|]. split; [by eapply baseline_per_vehicle_length|].
    intros r x Hr Hdist Hzero.
    destruct (baseline_per_vehicle_row _ _ _ Hdf Hr) as [_ _ _ Hc Hf Hck Hfk _ _].
    rewrite Hck, Hfk, Hc, Hf, Hdist. simpl. by rewrite Hzero.
Qed.

(** The sample fleet, with its battery records, is a source both variants
    accept. *)
Lemma per_km_ratio_missing_at_zero_distance_witness :
  (well_formed doc_fleet (Some battery_fleet) = true ∧
   Baseline.well_formed doc_fleet = true) ∧
  (∃ df, per_vehicle_table doc_fleet (Some battery_fleet) = Ok df ∧
     ∀ r x, r ∈ rows df →
       get "distance_km" r = Num x → PrimFloat.eqb x 0%float = true →
       get "CO2_kg_per_km" r = NA ∧ get "fuel_kg_per_km" r = NA) ∧
  (∃ df, Baseline.per_vehicle_table doc_fleet = Ok df ∧
     ∀ r x, r ∈ rows df →
       get "distance_km" r = Num x → PrimFloat.eqb x 0%float = true →
       get "CO2_kg_per_km" r = NA ∧ get "fuel_kg_per_km" r = NA).
Proof.
  assert (Hwf : well_formed doc_fleet (Some battery_fleet) = true)
    by (vm_compute; reflexivity).
  assert (Hwf' : Baseline.well_formed doc_fleet = true) by (vm_compute; reflexivity).
  split; [exact (conj Hwf Hwf')|].
  destruct (per_km_ratio_missing_at_zero_distance doc_fleet (Some battery_fleet)) as [H H'].
  destruct (H Hwf) as (df & Hdf & _ & Hrows).
  destruct (H' Hwf') as (df' & Hdf' & _ & Hrows').
  split; [exists df | exists df']; split; assumption.
Defined.

(** The background car of the sample fleet did not move: its ratios are
    missing, the ratios of the other vehicles are numbers. *)
Example fleet_per_km :
  column_of "distance_km" (per_vehicle_table doc_fleet None)
    = Some [Num 8.4%float; Num 5%float; Num 0%float; Num 12%float] ∧
  column_of "CO2_kg_per_km" (per_vehicle_table doc_fleet None)
    = Some [Num 0%float; Num 0.5%float; NA; Num (7 / 12)%float] ∧
  column_of "CO2_kg_per_km" (Baseline.per_vehicle_table doc_fleet)
    = Some [Num 0%float; Num 0.5%float; NA; Num (7 / 12)%float].
Proof. vm_compute. split_and!; reflexivity. Qed.

(** Battery records whose ids are numbers cannot be merged into trip
    records whose ids are text: the run stops at the merge, and such a
    source is not one the run accepts. *)
Example numeric_battery_ids_are_refused :
  per_vehicle_table doc_fleet (Some battery_numeric_ids)
    = Raise (ValueError
        "You are trying to merge on object and int64 columns for key 'id'. If you wish to proceed you should use pd.concat") ∧
  is_ok (main doc_fleet (Some battery_numeric_ids)) = false ∧
  well_formed doc_fleet (Some battery_numeric_ids) = false.
Proof. vm_compute. split_and!; reflexivity. Qed.

(** ** C6: driving time *)

(** C6. In the per-vehicle table of a run on a source it accepts, which has
    one row per trip record, the service time of a row is the configured
    constant when the row is a logistics truck and zero otherwise, and the
    driving time is the duration minus the service time, over sixty, with no
    clamping: a logistics truck with a duration of 1200 s drives for 10.0
    minutes, and one with a duration of 300 s gets -5.0 minutes.  This holds
    in the 50-50 variant, which makes the duration numeric first, and in the
    Baseline variant. *)
Theorem driving_time_net_of_service (doc : document) (battery : option (list node)) :
  (well_formed doc battery = true →
   ∃ df, per_vehicle_table doc battery = Ok df ∧
     get "id" <$> rows df = trip_ids doc ∧
     ∀ r, r ∈ rows df →
       get "service_time_s" r =
         Num (if bool_decide (get "vehicle_group" r = Str "logistics_truck")
              then SERVICE_TIME_PER_TRUCK_S else 0%float) ∧
       get "driving_time_min" r =
         Num ((to_numeric (get "duration" r) - num (get "service_time_s" r)) / 60)%float ∧
       (get "vehicle_group" r = Str "logistics_truck" →
        (get "duration" r = Num 1200%float → get "driving_time_min" r = Num 10%float) ∧
        (get "duration" r = Num 300%float → get "driving_time_min" r = Num (-5)%float))) ∧
  (Baseline.well_formed doc = true →
   ∃ df, Baseline.per_vehicle_table doc = Ok df ∧
     length (rows df) = length (tripinfo doc) ∧
     ∀ r, r ∈ rows df →
       get "service_time_s" r =
         Num (if bool_decide (get "vehicle_group" r = Str "logistics_truck")
              then SERVICE_TIME_PER_TRUCK_S else 0%float) ∧
       get "driving_time_min" r =
         Num ((num (get "duration" r) - num (get "service_time_s" r)) / 60)%float ∧
       (get "vehicle_group" r = Str "logistics_truck" →
        (get "duration" r = Num 1200%float → get "driving_time_min" r = Num 10%float) ∧
        (get "duration" r = Num 300%float → get "driving_time_min" r = Num (-5)%float))).
Proof.
  split; intros Hwf.
  - destruct (per_vehicle_table_total doc battery Hwf) as [df Hdf].
    exists df. split; [done|]. split; [by eapply per_vehicle_ids|]. intros r Hr.
    destruct (per_vehicle_row _ _ _ _ Hdf Hr) as [_ _ _ _ _ _ _ Hst Hdt _ _ _].
    split_and!; [done | done |].
    intros Htruck. rewrite Hdt, Hst. unfold service_time_of.
    rewrite bool_decide_eq_true_2 by done.
    split; intros ->; vm_compute; reflexivity.
  - destruct (baseline_per_vehicle_table_total doc Hwf) as [df Hdf].
    exists df. split; [done|]. split; [by eapply baseline_per_vehicle_length|].
    intros r Hr.
    destruct (baseline_per_vehicle_row _ _ _ Hdf Hr) as [_ _ _ _ _ _ _ Hst Hdt].
    split_and!; [done | done |].
    intros Htruck. rewrite Hdt, Hst. unfold service_time_of.
    rewrite bool_decide_eq_true_2 by done.
    split; intros ->; vm_compute; reflexivity.
Qed.

(** The sample fleet is a source both variants accept. *)
Lemma driving_time_net_of_service_witness :
  (well_formed doc_fleet None = true ∧ Baseline.well_formed doc_fleet = true) ∧
  (∃ df, per_vehicle_table doc_fleet None = Ok df ∧
     ∀ r, r ∈ rows df →
       get "vehicle_group" r = Str "logistics_truck" →
       (get "duration" r = Num 1200%float → get "driving_time_min" r = Num 10%float) ∧
       (get "duration" r = Num 300%float → get "driving_time_min" r = Num (-5)%float)) ∧
  (∃ df, Baseline.per_vehicle_table doc_fleet = Ok df ∧
     ∀ r, r ∈ rows df →
       get "vehicle_group" r = Str "logistics_truck" →
       (get "duration" r = Num 1200%float → get "driving_time_min" r = Num 10%float) ∧
       (get "duration" r = Num 300%float → get "driving_time_min" r = Num (-5)%float)).
Proof.
  assert (Hwf : well_formed doc_fleet None = true) by (vm_compute; reflexivity).
  assert (Hwf' : Baseline.well_formed doc_fleet = true) by (vm_compute; reflexivity).
  split; [exact (conj Hwf Hwf')|].
  destruct (driving_time_net_of_service doc_fleet None) as [H H'].
  destruct (H Hwf) as (df & Hdf & _ & Hrows).
  destruct (H' Hwf') as (df' & Hdf' & _ & Hrows').
  split; [exists df | exists df']; (split; [assumption|]).
  - intros r Hr. exact (proj2 (proj2 (Hrows r Hr))).
  - intros r Hr. exact (proj2 (proj2 (Hrows' r Hr))).
Defined.

(** The sample fleet: the truck of 1200 s drives 10.0 minutes, the truck of
    300 s gets -5.0 minutes, the background vehicles keep their duration. *)
Example fleet_driving_time :
  column_of "vehicle_group" (per_vehicle_table doc_fleet None)
    = Some [Str "logistics_truck"; Str "logistics_truck";
            Str "background_car"; Str "background_truck"] ∧
  column_of "duration" (per_vehicle_table doc_fleet None)
    = Some [Num 1200%float; Num 300%float; Num 90%float; Num 600%float] ∧
  column_of "driving_time_min" (per_vehicle_table doc_fleet None)
    = Some [Num 10%float; Num (-5)%float; Num 1.5%float; Num 10%float] ∧
  column_of "driving_time_min" (Baseline.per_vehicle_table doc_fleet)
    = Some [Num 10%float; Num (-5)%float; Num 1.5%float; Num 10%float].
Proof. vm_compute. split_and!; reflexivity. Qed.

(** ** C7: indirect CO2 *)

(** C7. In the per-vehicle table of a run on a source it accepts, which has
    one row per trip record, the indirect CO2 of a row is its [energy_kWh]
    times the grid factor when the row is an EV whose energy is known, and
    zero in every other case, EV rows of unknown energy included.  An EV
    with 50 kWh gets 10.0 kg; a Diesel vehicle gets 0.0 kg whatever its
    energy figure. *)
Theorem indirect_CO2_for_EV_only (doc : document) (battery : option (list node)) :
  well_formed doc battery = true →
  ∃ df, per_vehicle_table doc battery = Ok df ∧
    get "id" <$> rows df = trip_ids doc ∧
    ∀ r, r ∈ rows df →
      (get "powertrain" r = Str "EV" → notna (get "energy_kWh" r) = true →
       get "indirect_CO2_kg" r =
         Num (num (get "energy_kWh" r) * GRID_CO2_KG_PER_KWH)%float) ∧
      (get "powertrain" r ≠ Str "EV" ∨ isna (get "energy_kWh" r) = true →
       get "indirect_CO2_kg" r = Num 0%float) ∧
      (get "powertrain" r = Str "EV" → get "energy_kWh" r = Num 50%float →
       get "indirect_CO2_kg" r = Num 10%float) ∧
      (get "powertrain" r = Str "Diesel" → get "indirect_CO2_kg" r = Num 0%float).
Proof.
  intros Hwf. destruct (per_vehicle_table_total doc battery Hwf) as [df Hdf].
  exists df. split; [done|]. split; [by eapply per_vehicle_ids|]. intros r Hr.
  destruct (per_vehicle_row _ _ _ _ Hdf Hr) as [_ _ _ _ _ _ _ _ _ _ _ Hind].
  rewrite Hind. split_and!.
  - intros -> ->. by rewrite bool_decide_eq_true_2.
  - unfold notna. intros [Hpt | ->].
    + by rewrite bool_decide_eq_false_2.
    + by rewrite andb_false_r.
  - intros -> ->. vm_compute. reflexivity.
  - intros ->. by rewrite bool_decide_eq_false_2.
Qed.

(** The sample fleet, with its battery records, is a source the run
    accepts. *)
Lemma indirect_CO2_for_EV_only_witness :
  well_formed doc_fleet (Some battery_fleet) = true ∧
  ∃ df, per_vehicle_table doc_fleet (Some battery_fleet) = Ok df ∧
    get "id" <$> rows df = trip_ids doc_fleet ∧
    ∀ r, r ∈ rows df →
      (get "powertrain" r = Str "EV" → notna (get "energy_kWh" r) = true →
       get "indirect_CO2_kg" r =
         Num (num (get "energy_kWh" r) * GRID_CO2_KG_PER_KWH)%float) ∧
      (get "powertrain" r ≠ Str "EV" ∨ isna (get "energy_kWh" r) = true →
       get "indirect_CO2_kg" r = Num 0%float) ∧
      (get "powertrain" r = Str "EV" → get "energy_kWh" r = Num 50%float →
       get "indirect_CO2_kg" r = Num 10%float) ∧
      (get "powertrain" r = Str "Diesel" → get "indirect_CO2_kg" r = Num 0%float).
Proof.
  assert (Hwf : well_formed doc_fleet (Some battery_fleet) = true)
    by (vm_compute; reflexivity).
  split; [exact Hwf|].
  exact (indirect_CO2_for_EV_only doc_fleet (Some battery_fleet) Hwf).
Defined.

(** The sample fleet with its battery records: the electric truck and the
    diesel truck both consumed 50 kWh; only the electric one is charged
    indirect CO2. *)
Example fleet_indirect_CO2 :
  column_of "powertrain" (per_vehicle_table doc_fleet (Some battery_fleet))
    = Some [Str "EV"; Str "Diesel"; Str "Other"; Str "Diesel"] ∧
  column_of "energy_kWh" (per_vehicle_table doc_fleet (Some battery_fleet))
    = Some [Num 50%float; Num 50%float; Num PrimFloat.nan; Num PrimFloat.nan] ∧
  column_of "indirect_CO2_kg" (per_vehicle_table doc_fleet (Some battery_fleet))
    = Some [Num 10%float; Num 0%float; Num 0%float; Num 0%float].
Proof. vm_compute. split_and!; reflexivity. Qed.

(** ** C8: aggregation completeness *)

(** C8. A run on a source it accepts writes its tables; the per-vehicle
    table has one row per trip record, and the vehicle counts of the rows of
    the by-vehicle_group summary add up to the number of rows of the
    per-vehicle table.  This holds in the 50-50 and in the Baseline
    variant. *)
Theorem summary_by_group_counts_every_vehicle (doc : document) (battery : option (list node)) :
  (well_formed doc battery = true →
   ∃ out, main doc battery = Ok out ∧
     sum_list (n_vehicles <$> summary_by_group out) =
       length (rows (vehicles_with_emissions_and_energy out)) ∧
     length (rows (vehicles_with_emissions_and_energy out)) = length (tripinfo doc)) ∧
  (Baseline.well_formed doc = true →
   ∃ out, Baseline.main doc = Ok out ∧
     sum_list (n_vehicles <$> Baseline.summary_by_group out) =
       length (rows (Baseline.vehicles_with_emissions out)) ∧
     length (rows (Baseline.vehicles_with_emissions out)) = length (tripinfo doc)).
Proof.
  split; intros Hwf.
  - destruct (per_vehicle_table_total doc battery Hwf) as [df Hdf].
    destruct (main_total _ _ _ Hdf) as [out Hout].
    destruct (main_stages _ _ _ Hout) as (df' & Hdf' & Hv & Hs & _).
    assert (df' = df) as -> by congruence.
    exists out. split; [done|]. rewrite Hv, Hs. split.
    + apply summary_counts. intros r Hr. by eapply table_ids_present.
    + by eapply per_vehicle_length.
  - destruct (baseline_per_vehicle_table_total doc Hwf) as [df Hdf].
    destruct (baseline_main_outputs doc df Hdf) as (out & Hout & Hv & Hs).
    exists out. split; [done|]. rewrite Hv, Hs. split.
    + apply summary_counts. intros r Hr. by eapply baseline_table_ids_present.
    + by eapply baseline_per_vehicle_length.
Qed.

(** The sample fleet, with its battery records, is a source both variants
    accept. *)
Lemma summary_by_group_counts_every_vehicle_witness :
  (well_formed doc_fleet (Some battery_fleet) = true ∧
   Baseline.well_formed doc_fleet = true) ∧
  (∃ out, main doc_fleet (Some battery_fleet) = Ok out ∧
     sum_list (n_vehicles <$> summary_by_group out) =
       length (rows (vehicles_with_emissions_and_energy out)) ∧
     length (rows (vehicles_with_emissions_and_energy out)) = length (tripinfo doc_fleet)) ∧
  (∃ out, Baseline.main doc_fleet = Ok out ∧
     sum_list (n_vehicles <$> Baseline.summary_by_group out) =
       length (rows (Baseline.vehicles_with_emissions out)) ∧
     length (rows (Baseline.vehicles_with_emissions out)) = length (tripinfo doc_fleet)).
Proof.
  assert (Hwf : well_formed doc_fleet (Some battery_fleet) = true)
    by (vm_compute; reflexivity).
  assert (Hwf' : Baseline.well_formed doc_fleet = true) by (vm_compute; reflexivity).
  split; [exact (conj Hwf Hwf')|].
  destruct (summary_by_group_counts_every_vehicle doc_fleet (Some battery_fleet)) as [H H'].
  exact (conj (H Hwf) (H' Hwf')).
Defined.

(** The by-group summary of the sample fleet: three groups, four vehicles. *)
Example fleet_summary_by_group :
  match main doc_fleet (Some battery_fleet) with
  | Ok out => Some ((fun s => (group s, n_vehicles s)) <$> summary_by_group out,
                    length (rows (vehicles_with_emissions_and_energy out)))
  | Raise _ => None
  end
  = Some ([(Str "background_car", 1); (Str "background_truck", 1);
           (Str "logistics_truck", 2)], 4).
Proof. vm_compute. reflexivity. Qed.

(** ** C9: runs without battery data *)

(** C9. When the battery source is absent, or gives no usable data, a run on
    a source it accepts completes.  The per-vehicle table has one row per
    trip record, and [energy_kWh] is missing in every row.  The table of the
    logistics trucks holds the trip records whose id starts with [T_], in
    document order.  When the document has such a record, the by-hub summary
    is written, is not empty, and its vehicle counts add up to the number of
    those records; when the document has none, the by-hub summary is not
    written at all. *)
Theorem run_without_battery_data (doc : document) (battery : option (list node)) :
  well_formed doc battery = true →
  no_battery_data battery = true →
  ∃ out, main doc battery = Ok out ∧
    get "id" <$> rows (vehicles_with_emissions_and_energy out) = trip_ids doc ∧
    (∀ r, r ∈ rows (vehicles_with_emissions_and_energy out) →
          get "energy_kWh" r = NA) ∧
    get "id" <$> rows (logistics_trucks_detailed out) = truck_ids doc ∧
    (truck_ids doc ≠ [] →
     ∃ t, summary_trucks_by_hub_powertrain out = Some t ∧ t ≠ [] ∧
          sum_list (n_vehicles <$> t) = length (truck_ids doc)) ∧
    (truck_ids doc = [] → summary_trucks_by_hub_powertrain out = None).
Proof.
  intros Hwf Hno.
  destruct (per_vehicle_table_total doc battery Hwf) as [df Hdf].
  destruct (main_total _ _ _ Hdf) as [out Hout].
  destruct (main_stages _ _ _ Hout) as (df' & Hdf' & Hv & _).
  assert (df' = df) as -> by congruence.
  destruct (main_trucks _ _ _ Hout) as (Htrucks & Hnone & Hsome).
  exists out. rewrite Hv. split_and!; [done | | | done | done | done].
  - by eapply per_vehicle_ids.
  - intros r Hr. by apply (dr_energy_kWh _ _ (per_vehicle_row _ _ _ _ Hdf Hr)).
Qed.

(** The sample fleet, run without a battery source: its two logistics
    trucks are summarized by hub. *)
Lemma run_without_battery_data_witness :
  (well_formed doc_fleet None = true ∧ no_battery_data None = true) ∧
  ∃ out, main doc_fleet None = Ok out ∧
    get "id" <$> rows (vehicles_with_emissions_and_energy out) = trip_ids doc_fleet ∧
    (∀ r, r ∈ rows (vehicles_with_emissions_and_energy out) →
          get "energy_kWh" r = NA) ∧
    get "id" <$> rows (logistics_trucks_detailed out) = truck_ids doc_fleet ∧
    (truck_ids doc_fleet ≠ [] →
     ∃ t, summary_trucks_by_hub_powertrain out = Some t ∧ t ≠ [] ∧
          sum_list (n_vehicles <$> t) = length (truck_ids doc_fleet)) ∧
    (truck_ids doc_fleet = [] → summary_trucks_by_hub_powertrain out = None).
Proof.
  assert (Hwf : well_formed doc_fleet None = true) by (vm_compute; reflexivity).
  assert (Hno : no_battery_data None = true) by reflexivity.
  split; [exact (conj Hwf Hno)|].
  exact (run_without_battery_data doc_fleet None Hwf Hno).
Defined.

(** Without a battery source, the sample fleet gets its by-hub summary (one
    row per hub and powertrain), and the run without logistics trucks gets
    none; a battery source whose records carry no id is as good as absent. *)
Example runs_without_battery :
  truck_ids doc_fleet = [Str "T_SPAR_1"; Str "T_ROS34_2"] ∧
  match main doc_fleet None with
  | Ok out => Some ((fun s => (group s, n_vehicles s)) <$>
                      default [] (summary_trucks_by_hub_powertrain out))
  | Raise _ => None
  end
  = Some [((Str "Roswell3&4", Str "Diesel"), 1); ((Str "SPAR", Str "EV"), 1)] ∧
  truck_ids doc_background = [] ∧
  match main doc_background None with
  | Ok out => Some (summary_trucks_by_hub_powertrain out,
                    length (truck_rows (vehicles_with_emissions_and_energy out)))
  | Raise _ => None
  end = Some (None, 0) ∧
  no_battery_data (Some [[("energyConsumed", Num 5%float)]]) = true.
Proof. vm_compute. split_and!; reflexivity. Qed.

(** ** C10: vehicles without service time *)

(** C10. In the per-vehicle table of a run on a source it accepts, which has
    one row per trip record, a row that is not a logistics truck has a
    service time of exactly zero, and its driving time equals its travel
    time (both are the duration over sixty).  This holds in the 50-50 and in
    the Baseline variant. *)
Theorem no_service_time_outside_logistics (doc : document) (battery : option (list node)) :
  (well_formed doc battery = true →
   ∃ df, per_vehicle_table doc battery = Ok df ∧
     get "id" <$> rows df = trip_ids doc ∧
     ∀ r, r ∈ rows df → get "vehicle_group" r ≠ Str "logistics_truck" →
       get "service_time_s" r = Num 0%float ∧
       get "driving_time_min" r = get "travel_time_min" r ∧
       get "travel_time_min" r = Num (to_numeric (get "duration" r) / 60)%float) ∧
  (Baseline.well_formed doc = true →
   ∃ df, Baseline.per_vehicle_table doc = Ok df ∧
     length (rows df) = length (tripinfo doc) ∧
     ∀ r, r ∈ rows df → get "vehicle_group" r ≠ Str "logistics_truck" →
       get "service_time_s" r = Num 0%float ∧
       get "driving_time_min" r = get "travel_time_min" r ∧
       get "travel_time_min" r = Num (num (get "duration" r) / 60)%float).
Proof.
  split; intros Hwf.
  - destruct (per_vehicle_table_total doc battery Hwf) as [df Hdf].
    exists df. split; [done|]. split; [by eapply per_vehicle_ids|].
    intros r Hr Hnot.
    destruct (per_vehicle_row _ _ _ _ Hdf Hr) as [_ _ Htt _ _ _ _ Hst Hdt _ _ _].
    unfold service_time_of in Hst. rewrite bool_decide_eq_false_2 in Hst by done.
    split_and!; [done | | done].
    rewrite Hdt, Htt, Hst. simpl. by rewrite float_sub_zero.
  - destruct (baseline_per_vehicle_table_total doc Hwf) as [df Hdf].
    exists df. split; [done|]. split; [by eapply baseline_per_vehicle_length|].
    intros r Hr Hnot.
    destruct (baseline_per_vehicle_row _ _ _ Hdf Hr) as [_ _ Htt _ _ _ _ Hst Hdt].
    unfold service_time_of in Hst. rewrite bool_decide_eq_false_2 in Hst by done.
    split_and!; [done | | done].
    rewrite Hdt, Htt, Hst. simpl. by rewrite float_sub_zero.
Qed.

(** The sample fleet is a source both variants accept. *)
Lemma no_service_time_outside_logistics_witness :
  (well_formed doc_fleet None = true ∧ Baseline.well_formed doc_fleet = true) ∧
  (∃ df, per_vehicle_table doc_fleet None = Ok df ∧
     ∀ r, r ∈ rows df → get "vehicle_group" r ≠ Str "logistics_truck" →
       get "service_time_s" r = Num 0%float ∧
       get "driving_time_min" r = get "travel_time_min" r) ∧
  (∃ df, Baseline.per_vehicle_table doc_fleet = Ok df ∧
     ∀ r, r ∈ rows df → get "vehicle_group" r ≠ Str "logistics_truck" →
       get "service_time_s" r = Num 0%float ∧
       get "driving_time_min" r = get "travel_time_min" r).
Proof.
  assert (Hwf : well_formed doc_fleet None = true) by (vm_compute; reflexivity).
  assert (Hwf' : Baseline.well_formed doc_fleet = true) by (vm_compute; reflexivity).
  split; [exact (conj Hwf Hwf')|].
  destruct (no_service_time_outside_logistics doc_fleet None) as [H H'].
  destruct (H Hwf) as (df & Hdf & _ & Hrows).
  destruct (H' Hwf') as (df' & Hdf' & _ & Hrows').
  split; [exists df | exists df']; (split; [assumption|]).
  - intros r Hr Hg. destruct (Hrows r Hr Hg) as (Hs & Hd & _). exact (conj Hs Hd).
  - intros r Hr Hg. destruct (Hrows' r Hr Hg) as (Hs & Hd & _). exact (conj Hs Hd).
Defined.

(** The background vehicles of the sample fleet: no service time, and a
    driving time equal to the travel time. *)
Example fleet_background_times :
  column_of "service_time_s" (per_vehicle_table doc_fleet None)
    = Some [Num 600%float; Num 600%float; Num 0%float; Num 0%float] ∧
  column_of "travel_time_min" (per_vehicle_table doc_fleet None)
    = Some [Num 20%float; Num 5%float; Num 1.5%float; Num 10%float] ∧
  column_of "driving_time_min" (per_vehicle_table doc_fleet None)
    = Some [Num 10%float; Num (-5)%float; Num 1.5%float; Num 10%float].
Proof. vm_compute. split_and!; reflexivity. Qed.
